(** * The line classifier of [create_pdf] (src/main.py)

    [create_pdf] splits the generated resume text into lines, walks them once
    with two flags ([is_first_line], [is_second_line]) and appends one
    flowable per line to [elements]: a [Spacer] for a blank line, otherwise a
    [Paragraph] carrying the escaped text and one of six paragraph styles.

    A Python [str] is a sequence of Unicode code points, so text is a list of
    code points ([N]); [len] is the list length. *)

From Stdlib Require Import String Ascii Bool NArith ZArith QArith List Lia.
Import ListNotations.

Set Implicit Arguments.

(** ** Python strings *)

Module PyStr.

Definition char := N.
Definition str := list char.

(** An ASCII literal of the source, as code points. *)
Fixpoint of_string (s : string) : str :=
  match s with
  | EmptyString => []
  | String a s' => N_of_ascii a :: of_string s'
  end.

Definition NEWLINE : char := 10%N.
Definition AMPERSAND : char := 38%N.
Definition LESS_THAN : char := 60%N.
Definition GREATER_THAN : char := 62%N.
Definition VERTICAL_LINE : char := 124%N.
(** U+2014, the em dash of line 210, and U+2022, the bullet of lines 210, 213. *)
Definition EM_DASH : char := 8212%N.
Definition BULLET : char := 8226%N.
(** U+2013, the en dash; it only occurs in inputs. *)
Definition EN_DASH : char := 8211%N.

(** [Py_UNICODE_ISSPACE]: the code points [str.strip()] removes when it is
    called without an argument. *)
Definition Py_UNICODE_ISSPACE (c : char) : bool :=
  ((9 <=? c) && (c <=? 13) || (28 <=? c) && (c <=? 32)
   || (c =? 133) || (c =? 160) || (c =? 5760)
   || (8192 <=? c) && (c <=? 8202)
   || (c =? 8232) || (c =? 8233) || (c =? 8239) || (c =? 8287)
   || (c =? 12288))%N.

Fixpoint lstrip (s : str) : str :=
  match s with
  | [] => []
  | c :: s' => if Py_UNICODE_ISSPACE c then lstrip s' else s
  end.

Definition rstrip (s : str) : str := rev (lstrip (rev s)).

(** [s.strip()] *)
Definition strip (s : str) : str := rstrip (lstrip s).

(** [s.split(sep)] for a one-character separator: the pieces between the
    separators, so a text that ends in the separator has a last empty piece. *)
Fixpoint split (sep : char) (s : str) : list str :=
  match s with
  | [] => [[]]
  | c :: s' =>
      if (c =? sep)%N then [] :: split sep s'
      else match split sep s' with
           | piece :: pieces => (c :: piece) :: pieces
           | [] => [[c]]
           end
  end.

(** [s.startswith(prefix)] *)
Fixpoint startswith (prefix s : str) : bool :=
  match prefix, s with
  | [], _ => true
  | _ :: _, [] => false
  | p :: prefix', c :: s' => (p =? c)%N && startswith prefix' s'
  end.

(** [sub in s] *)
Fixpoint contains (sub s : str) : bool :=
  startswith sub s ||
  match s with
  | [] => false
  | _ :: s' => contains sub s'
  end.

(** [s.replace(old, new)] for a non-empty [old]: occurrences are replaced from
    left to right without overlap; [skip] counts the characters of a matched
    occurrence that are still to be dropped. *)
Fixpoint replace_from (old new : str) (skip : nat) (s : str) : str :=
  match s with
  | [] => []
  | c :: s' =>
      match skip with
      | S k => replace_from old new k s'
      | O =>
          if startswith old s then new ++ replace_from old new (length old - 1) s'
          else c :: replace_from old new 0 s'
      end
  end.

Definition replace (old new s : str) : str := replace_from old new 0 s.

(** The case properties of the Unicode character database that [str.isupper]
    reads. The database is not part of the program (it varies with the
    interpreter), so it is a parameter of the model. *)
Record CaseTable := {
  Py_UNICODE_ISLOWER : char -> bool;
  Py_UNICODE_ISUPPER : char -> bool;
  Py_UNICODE_ISTITLE : char -> bool
}.

(** [s.isupper()]: a one-character string is tested for upper case alone; the
    empty string is not upper; otherwise no character may be lower or title
    case and some character must be upper case. *)
Definition isupper (T : CaseTable) (s : str) : bool :=
  match s with
  | [c] => Py_UNICODE_ISUPPER T c
  | _ =>
      forallb (fun c => negb (Py_UNICODE_ISLOWER T c || Py_UNICODE_ISTITLE T c)) s
      && existsb (Py_UNICODE_ISUPPER T) s
  end.

(** A character is cased when the table gives it one of the three cases. *)
Definition cased (T : CaseTable) (c : char) : bool :=
  Py_UNICODE_ISLOWER T c || Py_UNICODE_ISUPPER T c || Py_UNICODE_ISTITLE T c.

(** The table restricted to ASCII: A-Z upper, a-z lower, nothing else cased. *)
Definition ascii_isupper (c : char) : bool := ((65 <=? c) && (c <=? 90))%N.
Definition ascii_islower (c : char) : bool := ((97 <=? c) && (c <=? 122))%N.

Definition Py_ascii : CaseTable :=
  {| Py_UNICODE_ISLOWER := ascii_islower;
     Py_UNICODE_ISUPPER := ascii_isupper;
     Py_UNICODE_ISTITLE := fun _ => false |}.

(** A table agrees with ASCII when it classifies the code points below 128 as
    [Py_ascii] does (every Unicode version does). *)
Definition agrees_with_ascii (T : CaseTable) : Prop :=
  forall c, (c < 128)%N ->
    Py_UNICODE_ISLOWER T c = ascii_islower c /\
    Py_UNICODE_ISUPPER T c = ascii_isupper c /\
    Py_UNICODE_ISTITLE T c = false.

End PyStr.

Import PyStr.

(** ** The document model: reportlab's units, styles and flowables *)

(** Lengths are in points; [inch] and [letter] are reportlab's constants
    ([reportlab.lib.units.inch = 72.0], [letter = (8.5*inch, 11*inch)]). *)
Definition inch : Q := 72.
Definition letter : Q * Q := ((17 # 2) * inch, 11 * inch)%Q.

Inductive Alignment := TA_LEFT | TA_CENTER.

(** A [ParagraphStyle] as the source builds it: the name and the attributes it
    sets; [None] is an attribute left to the parent [styles['Normal']]. *)
Record ParagraphStyle := {
  style_name : string;
  fontName : string;
  fontSize : Z;
  leading : option Z;
  textColor : option string;
  alignment : option Alignment;
  spaceBefore : option Z;
  spaceAfter : Z;
  leftIndent : option Z
}.

Definition name_style : ParagraphStyle :=
  {| style_name := "NameStyle"; fontSize := 18; textColor := Some "#000000"%string;
     spaceAfter := 4; alignment := Some TA_CENTER; fontName := "Helvetica-Bold";
     leading := Some 22%Z; spaceBefore := None; leftIndent := None |}.

Definition contact_style : ParagraphStyle :=
  {| style_name := "ContactStyle"; fontSize := 9; textColor := Some "#333333"%string;
     spaceAfter := 12; alignment := Some TA_CENTER; fontName := "Helvetica";
     leading := None; spaceBefore := None; leftIndent := None |}.

Definition heading_style : ParagraphStyle :=
  {| style_name := "HeadingStyle"; fontSize := 11; textColor := Some "#000000"%string;
     spaceAfter := 8; spaceBefore := Some 14%Z; fontName := "Helvetica-Bold";
     leading := Some 13%Z; alignment := None; leftIndent := None |}.

Definition subheading_style : ParagraphStyle :=
  {| style_name := "SubheadingStyle"; fontSize := 10; textColor := Some "#000000"%string;
     spaceAfter := 2; spaceBefore := Some 6%Z; fontName := "Helvetica-Bold";
     leading := Some 12%Z; alignment := None; leftIndent := None |}.

Definition normal_style : ParagraphStyle :=
  {| style_name := "NormalStyle"; fontSize := 10; spaceAfter := 4;
     alignment := Some TA_LEFT; fontName := "Helvetica"; leading := Some 12%Z;
     textColor := None; spaceBefore := None; leftIndent := None |}.

Definition bullet_style : ParagraphStyle :=
  {| style_name := "BulletStyle"; fontSize := 10; spaceAfter := 3;
     leftIndent := Some 20%Z; fontName := "Helvetica"; leading := Some 12%Z;
     textColor := None; alignment := None; spaceBefore := None |}.

Inductive Flowable :=
| Spacer (width height : Q)
| Paragraph (text : str) (style : ParagraphStyle).

(** ** The loop of [create_pdf] *)

Record LoopState := {
  is_first_line : bool;
  is_second_line : bool;
  elements : list Flowable
}.

(** [elements.append(e)] *)
Definition append (st : LoopState) (e : Flowable) : LoopState :=
  {| is_first_line := is_first_line st;
     is_second_line := is_second_line st;
     elements := elements st ++ [e] |}.

(** Line 191: the three chained [replace] calls. *)
Definition escape (line : str) : str :=
  replace [GREATER_THAN] (of_string "&gt;")
    (replace [LESS_THAN] (of_string "&lt;")
       (replace [AMPERSAND] (of_string "&amp;") line)).

(** Line 216: the tokens of the date test. *)
Definition months : list str :=
  map of_string
    ["01/"; "02/"; "03/"; "04/"; "05/"; "06/"; "07/"; "08/"; "09/"; "10/";
     "11/"; "12/"; "Present"; "Expected"]%string.

(** Lines 184-220: one iteration of the loop on the raw line. *)
Definition loop_body (T : CaseTable) (st : LoopState) (raw : str) : LoopState :=
  let line := strip raw in
  match line with
  | [] => append st (Spacer 1 ((8 # 100) * inch))
  | _ :: _ =>
      let line_escaped := escape line in
      if is_first_line st && (length line <? 80) then
        {| is_first_line := false;
           is_second_line := true;
           elements := elements st ++ [Paragraph line_escaped name_style] |}
      else if is_second_line st && contains [VERTICAL_LINE] line then
        {| is_first_line := is_first_line st;
           is_second_line := false;
           elements := elements st ++ [Paragraph line_escaped contact_style] |}
      else if isupper T line && (3 <? length line) && (length line <? 50) then
        append st (Paragraph line_escaped heading_style)
      else if contains [EM_DASH] line && negb (startswith [BULLET] line) then
        append st (Paragraph line_escaped subheading_style)
      else if startswith [BULLET] line then
        append st (Paragraph line_escaped bullet_style)
      else if contains [VERTICAL_LINE] line
              && existsb (fun month => contains month line) months then
        append st (Paragraph line_escaped normal_style)
      else
        append st (Paragraph line_escaped normal_style)
  end.

(** Lines 179-181: the state before the first line. *)
Definition initial : LoopState :=
  {| is_first_line := true; is_second_line := false; elements := [] |}.

(** The document handed to [doc.build]: the template of lines 104-106 and the
    flowables the loop collected. *)
Record Document := {
  pagesize : Q * Q;
  rightMargin : Q;
  leftMargin : Q;
  topMargin : Q;
  bottomMargin : Q;
  story : list Flowable
}.

Definition create_pdf (T : CaseTable) (resume_text : str) (full_name : str) : Document :=
  let lines := split NEWLINE resume_text in
  {| pagesize := letter;
     rightMargin := (75 # 100) * inch;
     leftMargin := (75 # 100) * inch;
     topMargin := (75 # 100) * inch;
     bottomMargin := (75 # 100) * inch;
     story := elements (fold_left (loop_body T) lines initial) |}.

(** ** Roles

    The specification names the outcome of a line by a role; in the program it
    is the kind of flowable and the style the paragraph carries. *)

Inductive Role :=
| Name | ContactLine | SectionHeader | SubHeading | Bullet | Body | Blank.

Definition role_of_style (s : ParagraphStyle) : Role :=
  if String.eqb (style_name s) "NameStyle" then Name
  else if String.eqb (style_name s) "ContactStyle" then ContactLine
  else if String.eqb (style_name s) "HeadingStyle" then SectionHeader
  else if String.eqb (style_name s) "SubheadingStyle" then SubHeading
  else if String.eqb (style_name s) "BulletStyle" then Bullet
  else Body.

Definition role (e : Flowable) : Role :=
  match e with
  | Spacer _ _ => Blank
  | Paragraph _ s => role_of_style s
  end.

Definition roles (d : Document) : list Role := map role (story d).

(** ** One iteration, read as a decision on the flags and the trimmed line *)

(** Rules of lines 207-220, reached when neither flag rule fires. *)
Definition late_style (T : CaseTable) (line : str) : ParagraphStyle :=
  if isupper T line && (3 <? length line) && (length line <? 50) then heading_style
  else if contains [EM_DASH] line && negb (startswith [BULLET] line) then subheading_style
  else if startswith [BULLET] line then bullet_style
  else normal_style.

Definition name_rule (f1 : bool) (line : str) : bool := f1 && (length line <? 80).
Definition contact_rule (f2 : bool) (line : str) : bool := f2 && contains [VERTICAL_LINE] line.

Definition style_for (T : CaseTable) (f1 f2 : bool) (line : str) : ParagraphStyle :=
  if name_rule f1 line then name_style
  else if contact_rule f2 line then contact_style
  else late_style T line.

(** The flowable one iteration appends. *)
Definition emitted (T : CaseTable) (f1 f2 : bool) (raw : str) : Flowable :=
  match strip raw with
  | [] => Spacer 1 ((8 # 100) * inch)
  | _ :: _ => Paragraph (escape (strip raw)) (style_for T f1 f2 (strip raw))
  end.

(** The flags after one iteration. *)
Definition first_after (f1 : bool) (raw : str) : bool :=
  match strip raw with
  | [] => f1
  | _ :: _ => if name_rule f1 (strip raw) then false else f1
  end.

Definition second_after (f1 f2 : bool) (raw : str) : bool :=
  match strip raw with
  | [] => f2
  | _ :: _ =>
      if name_rule f1 (strip raw) then true
      else if contact_rule f2 (strip raw) then false
      else f2
  end.

(** The flowables of a run of the loop over [lines], first line first. *)
Fixpoint run (T : CaseTable) (f1 f2 : bool) (lines : list str) : list Flowable :=
  match lines with
  | [] => []
  | raw :: rest =>
      emitted T f1 f2 raw :: run T (first_after f1 raw) (second_after f1 f2 raw) rest
  end.

(** The role of a line, from the flags and the trimmed line. *)

Definition rest_role (line : str) : Role :=
  if contains [EM_DASH] line && negb (startswith [BULLET] line) then SubHeading
  else if startswith [BULLET] line then Bullet
  else Body.

Definition header_bounds (line : str) : bool :=
  (3 <? length line) && (length line <? 50).

Definition late_role (T : CaseTable) (line : str) : Role :=
  if isupper T line && header_bounds line then SectionHeader else rest_role line.

Definition role_for (T : CaseTable) (f1 f2 : bool) (line : str) : Role :=
  match line with
  | [] => Blank
  | _ :: _ =>
      if name_rule f1 line then Name
      else if contact_rule f2 line then ContactLine
      else late_role T line
  end.

(** The roles of a run, with the flags threaded as the loop does. *)
Fixpoint run_roles (T : CaseTable) (f1 f2 : bool) (lines : list str) : list Role :=
  match lines with
  | [] => []
  | raw :: rest =>
      role_for T f1 f2 (strip raw)
      :: run_roles T (first_after f1 raw) (second_after f1 f2 raw) rest
  end.

(** The part of the decision that does not read the case table: [Some] role
    when the line is blank or a flag rule fires, [None] when the line goes on
    to the rules of lines 207-220. *)
Definition flag_role (f1 f2 : bool) (line : str) : option Role :=
  match line with
  | [] => Some Blank
  | _ :: _ =>
      if name_rule f1 line then Some Name
      else if contact_rule f2 line then Some ContactLine
      else None
  end.

(** ** Escaping, character by character *)

(** What the three [replace] calls of line 191 amount to on one character. *)
Definition escape_char (c : char) : str :=
  if (c =? AMPERSAND)%N then of_string "&amp;"
  else if (c =? LESS_THAN)%N then of_string "&lt;"
  else if (c =? GREATER_THAN)%N then of_string "&gt;"
  else [c].

(** The reading of escaped text that a markup parser makes: the three entity
    references stand for their characters, everything else for itself.
    [skip] counts the characters of a reference still to be dropped. *)
Fixpoint unescape_from (skip : nat) (s : str) : str :=
  match s with
  | [] => []
  | c :: s' =>
      match skip with
      | S k => unescape_from k s'
      | O =>
          if startswith (of_string "&amp;") s then AMPERSAND :: unescape_from 4 s'
          else if startswith (of_string "&lt;") s then LESS_THAN :: unescape_from 3 s'
          else if startswith (of_string "&gt;") s then GREATER_THAN :: unescape_from 3 s'
          else c :: unescape_from 0 s'
      end
  end.

Definition unescape (s : str) : str := unescape_from 0 s.

(** ** Two variants of the loop, for comparison with the program *)

(** [loop_body] with the date branch of lines 215-217 removed: such lines take
    the final [else]. *)
Definition loop_body_without_date_branch
    (T : CaseTable) (st : LoopState) (raw : str) : LoopState :=
  let line := strip raw in
  match line with
  | [] => append st (Spacer 1 ((8 # 100) * inch))
  | _ :: _ =>
      let line_escaped := escape line in
      if is_first_line st && (length line <? 80) then
        {| is_first_line := false;
           is_second_line := true;
           elements := elements st ++ [Paragraph line_escaped name_style] |}
      else if is_second_line st && contains [VERTICAL_LINE] line then
        {| is_first_line := is_first_line st;
           is_second_line := false;
           elements := elements st ++ [Paragraph line_escaped contact_style] |}
      else if isupper T line && (3 <? length line) && (length line <? 50) then
        append st (Paragraph line_escaped heading_style)
      else if contains [EM_DASH] line && negb (startswith [BULLET] line) then
        append st (Paragraph line_escaped subheading_style)
      else if startswith [BULLET] line then
        append st (Paragraph line_escaped bullet_style)
      else
        append st (Paragraph line_escaped normal_style)
  end.

Definition create_pdf_without_date_branch
    (T : CaseTable) (resume_text : str) (full_name : str) : Document :=
  let lines := split NEWLINE resume_text in
  {| pagesize := letter;
     rightMargin := (75 # 100) * inch;
     leftMargin := (75 # 100) * inch;
     topMargin := (75 # 100) * inch;
     bottomMargin := (75 # 100) * inch;
     story := elements (fold_left (loop_body_without_date_branch T) lines initial) |}.

(** [loop_body] with every test made on the escaped text instead of the
    trimmed line. *)
Definition loop_body_on_escaped
    (T : CaseTable) (st : LoopState) (raw : str) : LoopState :=
  let line := strip raw in
  match line with
  | [] => append st (Spacer 1 ((8 # 100) * inch))
  | _ :: _ =>
      let line_escaped := escape line in
      if is_first_line st && (length line_escaped <? 80) then
        {| is_first_line := false;
           is_second_line := true;
           elements := elements st ++ [Paragraph line_escaped name_style] |}
      else if is_second_line st && contains [VERTICAL_LINE] line_escaped then
        {| is_first_line := is_first_line st;
           is_second_line := false;
           elements := elements st ++ [Paragraph line_escaped contact_style] |}
      else if isupper T line_escaped && (3 <? length line_escaped)
              && (length line_escaped <? 50) then
        append st (Paragraph line_escaped heading_style)
      else if contains [EM_DASH] line_escaped
              && negb (startswith [BULLET] line_escaped) then
        append st (Paragraph line_escaped subheading_style)
      else if startswith [BULLET] line_escaped then
        append st (Paragraph line_escaped bullet_style)
      else if contains [VERTICAL_LINE] line_escaped
              && existsb (fun month => contains month line_escaped) months then
        append st (Paragraph line_escaped normal_style)
      else
        append st (Paragraph line_escaped normal_style)
  end.

Definition create_pdf_on_escaped
    (T : CaseTable) (resume_text : str) (full_name : str) : Document :=
  let lines := split NEWLINE resume_text in
  {| pagesize := letter;
     rightMargin := (75 # 100) * inch;
     leftMargin := (75 # 100) * inch;
     topMargin := (75 # 100) * inch;
     bottomMargin := (75 # 100) * inch;
     story := elements (fold_left (loop_body_on_escaped T) lines initial) |}.

(** ** Inputs used below *)

Definition lines_text (ls : list str) : str :=
  match ls with
  | [] => []
  | l :: rest => l ++ flat_map (fun l' => NEWLINE :: l') rest
  end.

(** Scenario A of the specification; it ends in a newline, so the last piece
    of the text is empty. *)
Definition scenario_A : str :=
  lines_text
    [ of_string "JANE DOE";
      of_string "New York, NY | 555-1234 | jane@x.com";
      [];
      of_string "PROFESSIONAL SUMMARY";
      of_string "Experienced engineer.";
      [];
      of_string "EXPERIENCE";
      of_string "Software Engineer " ++ [EM_DASH] ++ of_string " Acme Corp";
      of_string "NYC | 01/2020 " ++ [EN_DASH] ++ of_string " Present";
      [BULLET] ++ of_string " Built things";
      [] ].

(** A first line of 80 characters, then the name. *)
Definition long_first_line : str :=
  lines_text [ repeat 120%N 80; of_string "JANE DOE" ].

(** A name, a summary of more than 50 characters without a bar, then a date
    line. *)
Definition late_bar_line : str :=
  lines_text
    [ of_string "JANE DOE";
      of_string "Software engineer with ten years of experience in compilers";
      of_string "NYC | 01/2020 " ++ [EN_DASH] ++ of_string " Present" ].

(** A name, a contact line, then an upper-case header with an ampersand. *)
Definition ampersand_header : str :=
  lines_text
    [ of_string "JANE DOE";
      of_string "NYC | jane@x.com";
      of_string "R&D DEPARTMENT" ].

(** One upper-case line of 90 characters with an em dash. *)
Definition long_upper_line : str :=
  of_string "SENIOR ENGINEER " ++ [EM_DASH] ++ of_string " " ++ repeat 65%N 72.

(** An upper-case line of 27 characters with an em dash. *)
Definition upper_em_dash_line : str :=
  of_string "SENIOR ENGINEER " ++ [EM_DASH] ++ of_string " ACME CORP".

(** A line with markup characters and surrounding blanks. *)
Definition tagged_line : str := of_string "  <b>R&D | Labs</b>  ".

(** Two blank lines, then a line of 90 capital letters. *)
Definition blank_then_capitals : str :=
  lines_text [ []; of_string "   "; repeat 65%N 90 ].

(** A line of digits and punctuation. *)
Definition digits_line : str := of_string "2019 - 2023".

(** The state once name and contact line are done. *)
Definition steady : LoopState :=
  {| is_first_line := false; is_second_line := false; elements := [] |}.

(** ** Readings used for the further properties of the loop *)

(** The least index of a list whose element satisfies [p]. *)
Fixpoint first_index {A : Type} (p : A -> bool) (l : list A) : option nat :=
  match l with
  | [] => None
  | x :: l' => if p x then Some 0%nat else option_map S (first_index p l')
  end.

(** A line the name rule takes while [is_first_line] is set: not blank and
    shorter than 80 characters once trimmed. *)
Definition namable (raw : str) : bool :=
  match strip raw with
  | [] => false
  | _ :: _ => length (strip raw) <? 80
  end.

(** A line with a vertical bar. *)
Definition has_bar (raw : str) : bool := contains [VERTICAL_LINE] (strip raw).

Definition nonblank (line : str) : bool :=
  match line with
  | [] => false
  | _ :: _ => true
  end.

(** The texts of the paragraphs of a story, in order. *)
Definition paragraph_texts (flowables : list Flowable) : list str :=
  flat_map (fun e => match e with
                     | Paragraph text _ => [text]
                     | Spacer _ _ => []
                     end) flowables.

Definition CARRIAGE_RETURN : char := 13%N.

(** The text with every newline turned into carriage return and newline. *)
Definition crlf (text : str) : str :=
  replace [NEWLINE] [CARRIAGE_RETURN; NEWLINE] text.

(** A string that does not begin with a whitespace character. *)
Definition starts_unspaced (s : str) : Prop :=
  match s with
  | [] => True
  | c :: _ => Py_UNICODE_ISSPACE c = false
  end.

(** A string that does not end with a whitespace character. *)
Definition ends_unspaced (s : str) : Prop := starts_unspaced (rev s).

(** Two short inputs that differ in whitespace only. *)
Definition padded_text : str :=
  lines_text [ of_string "   JANE DOE  "; of_string "  a | b"; [9%N]; of_string " x " ].

Definition trimmed_text : str :=
  lines_text [ of_string "JANE DOE"; of_string "a | b"; []; of_string "x" ].

(** * The rest of the script: session state, the form, the generate handler
      and the downloads *)

(** ** Session state (lines 52-55 and 80-83)

    [st.session_state] is a dictionary; the script only ever uses the two
    keys below, so the dictionary is a record of two optional entries, [None]
    for a key that is absent. *)

Record SessionState := {
  resume_generated : option bool;
  generated_resume : option str
}.

Definition KEY_GENERATED : string := "resume_generated".
Definition KEY_RESUME : string := "generated_resume".

(** [key in st.session_state] *)
Definition has_key (st : SessionState) (key : string) : bool :=
  if String.eqb key KEY_GENERATED then
    match resume_generated st with Some _ => true | None => false end
  else if String.eqb key KEY_RESUME then
    match generated_resume st with Some _ => true | None => false end
  else false.

(** [list(st.session_state.keys())] *)
Definition keys (st : SessionState) : list string :=
  (if has_key st KEY_GENERATED then [KEY_GENERATED] else [])
  ++ (if has_key st KEY_RESUME then [KEY_RESUME] else []).

(** [del st.session_state[key]] *)
Definition del_key (st : SessionState) (key : string) : SessionState :=
  if String.eqb key KEY_GENERATED then
    {| resume_generated := None; generated_resume := generated_resume st |}
  else if String.eqb key KEY_RESUME then
    {| resume_generated := resume_generated st; generated_resume := None |}
  else st.

(** Lines 52-55: each key is given its default when it is absent. *)
Definition init_session_state (st : SessionState) : SessionState :=
  let st1 :=
    if negb (has_key st KEY_GENERATED) then
      {| resume_generated := Some false; generated_resume := generated_resume st |}
    else st in
  if negb (has_key st1 KEY_RESUME) then
    {| resume_generated := resume_generated st1; generated_resume := Some [] |}
  else st1.

(** Lines 81-82: the loop of the "Clear All Data" button. *)
Definition clear_all_data (st : SessionState) : SessionState :=
  fold_left del_key (keys st) st.

(** ** The form and its validation (lines 307-325) *)

Record Form := {
  full_name : str;
  email : str;
  phone : str;
  location : str;
  linkedin : str;
  github : str;
  portfolio : str;
  education : str;
  job_title : str;
  job_description : str;
  professional_summary : str;
  skills : str;
  work_experience : str;
  projects : str;
  certifications : str;
  achievements : str
}.

(** Lines 309-320: the dictionary of required fields, in its order. *)
Definition required_fields (f : Form) : list (str * str) :=
  [ (of_string "Full Name", full_name f);
    (of_string "Email", email f);
    (of_string "Phone", phone f);
    (of_string "Location", location f);
    (of_string "Education", education f);
    (of_string "Job Title", job_title f);
    (of_string "Job Description", job_description f);
    (of_string "Skills", skills f);
    (of_string "Work Experience", work_experience f);
    (of_string "Projects", projects f) ].

(** [not x]: a string or a list is false when it is empty. *)
Definition is_empty {A : Type} (x : list A) : bool :=
  match x with
  | [] => true
  | _ :: _ => false
  end.

(** Line 322 *)
Definition missing_fields (f : Form) : list str :=
  map fst (filter (fun field_value => is_empty (strip (snd field_value)))
             (required_fields f)).

(** [sep.join(pieces)] *)
Definition join (sep : str) (pieces : list str) : str :=
  match pieces with
  | [] => []
  | piece :: rest => piece ++ flat_map (fun p => sep ++ p) rest
  end.

(** [x if x else "Not provided"] *)
Definition or_not_provided (x : str) : str :=
  if is_empty x then of_string "Not provided" else x.

(** Lines 416-431: what is handed to the chain. *)
Definition input_data (f : Form) : list (string * str) :=
  [ ("full_name", full_name f);
    ("email", email f);
    ("phone", phone f);
    ("location", location f);
    ("linkedin", or_not_provided (linkedin f));
    ("portfolio", or_not_provided (portfolio f));
    ("job_title", job_title f);
    ("job_description", job_description f);
    ("professional_summary", or_not_provided (professional_summary f));
    ("education", education f);
    ("skills", skills f);
    ("work_experience", work_experience f);
    ("projects", projects f);
    ("certifications", or_not_provided (certifications f)) ]%string.

(** ** The generate handler (lines 307-447) *)

(** The chain of prompt, model and output parser is outside the program: it
    returns a text or raises an exception with a message. *)
Inductive ChainResult :=
| Returned (resume_output : str)
| Raised (message : str).

Inductive Message :=
| st_error (text : str)
| st_info (text : str)
| st_success (text : str).

(** The emoji of the messages. *)
Definition CROSS_MARK : char := 10060%N.
Definition LIGHT_BULB : char := 128161%N.
Definition CHECK_MARK : char := 9989%N.

Fixpoint str_eqb (a b : str) : bool :=
  match a, b with
  | [], [] => true
  | x :: a', y :: b' => (x =? y)%N && str_eqb a' b'
  | _, _ => false
  end.

(** Line 436. [lower] is [str.lower], which reads the Unicode database and is
    a parameter like the case table. The test is made only on a non-empty
    output. *)
Definition moderation_blocked (lower : str -> str) (resume_output : str) : bool :=
  negb (is_empty resume_output)
  && existsb (str_eqb (lower (strip resume_output)))
       [of_string "safe"; of_string "unsafe"; []].

Definition generate
    (lower : str -> str) (chain : list (string * str) -> ChainResult)
    (f : Form) (st : SessionState) : SessionState * list Message :=
  let missing := missing_fields f in
  if negb (is_empty missing) then
    (st,
     [st_error ([CROSS_MARK]
                ++ of_string " Please fill in the following required fields: "
                ++ join (of_string ", ") missing)])
  else
    match chain (input_data f) with
    | Returned resume_output =>
        if moderation_blocked lower resume_output then
          (st,
           [st_error ([CROSS_MARK] ++ of_string
              " Content moderation triggered. Try rephrasing your input or use a different model.");
            st_info ([LIGHT_BULB] ++ of_string
              " Tip: Try removing any unusual characters or sensitive information from your inputs.")])
        else
          ({| resume_generated := Some true;
              generated_resume := Some resume_output |},
           [st_success ([CHECK_MARK] ++ of_string " Resume generated successfully!")])
    | Raised message =>
        (st,
         [st_error ([CROSS_MARK] ++ of_string " Error generating resume: " ++ message);
          st_info ([LIGHT_BULB] ++ of_string
            " If you see 'safe' as output, this means the content was blocked by GROQ's moderation. Try using a different model or rephrasing your input.")])
    end.

(** ** The display and the downloads (lines 449-485) *)

(** Lines 468 and 480: the file name, for the extension [ext] and the date
    stamp that [strftime('%Y%m%d')] returned. *)
Definition file_name (name stamp ext : str) : str :=
  of_string "ATS_Resume_" ++ replace (of_string " ") (of_string "_") name
  ++ of_string "_" ++ stamp ++ ext.

Record View := {
  text_area_value : str;
  txt_data : str;
  txt_file_name : str;
  pdf_document : Document;
  pdf_file_name : str
}.

(** What the display section does: it raises [AttributeError] when it reads a
    key that is absent, shows nothing when the condition of line 449 is
    false, and otherwise shows the text and offers the two downloads. *)
Inductive Display :=
| AttributeError
| NothingShown
| Shown (view : View).

Definition display
    (T : CaseTable) (stamp_txt stamp_pdf : str) (name : str)
    (st : SessionState) : Display :=
  match resume_generated st with
  | None => AttributeError
  | Some false => NothingShown
  | Some true =>
      match generated_resume st with
      | None => AttributeError
      | Some resume =>
          if is_empty resume then NothingShown
          else Shown {| text_area_value := resume;
                        txt_data := resume;
                        txt_file_name := file_name name stamp_txt (of_string ".txt");
                        pdf_document := create_pdf T resume name;
                        pdf_file_name := file_name name stamp_pdf (of_string ".pdf") |}
      end
  end.

(** [str.lower] on ASCII: A-Z to a-z, everything else kept. *)
Definition ascii_lower (s : str) : str :=
  map (fun c => if ascii_isupper c then (c + 32)%N else c) s.

(** A [lower] agrees with ASCII when it lowers texts of code points below 128
    as [ascii_lower] does. *)
Definition lower_agrees_with_ascii (lower : str -> str) : Prop :=
  forall s, forallb (fun c => c <? 128)%N s = true -> lower s = ascii_lower s.

(** A form with the required fields filled in, and one with two of them
    blank. *)
Definition filled_form : Form :=
  {| full_name := of_string "Jane Doe"; email := of_string "jane@x.com";
     phone := of_string "555-1234"; location := of_string "New York, NY";
     linkedin := []; github := []; portfolio := [];
     education := of_string "BSc"; job_title := of_string "Engineer";
     job_description := of_string "Build things"; professional_summary := [];
     skills := of_string "Python"; work_experience := of_string "Acme";
     projects := of_string "Compiler"; certifications := []; achievements := [] |}.

Definition form_with_blanks : Form :=
  {| full_name := of_string "Jane Doe"; email := of_string "   ";
     phone := of_string "555-1234"; location := of_string "New York, NY";
     linkedin := []; github := []; portfolio := [];
     education := of_string "BSc"; job_title := of_string "Engineer";
     job_description := of_string "Build things"; professional_summary := [];
     skills := []; work_experience := of_string "Acme";
     projects := of_string "Compiler"; certifications := []; achievements := [] |}.

Definition empty_session : SessionState :=
  {| resume_generated := None; generated_resume := None |}.

Definition stored_session : SessionState :=
  {| resume_generated := Some true; generated_resume := Some (of_string "OLD") |}.

(** The form [f] with other entries in the GitHub and achievements fields. *)
Definition with_github_achievements (f : Form) (g a : str) : Form :=
  {| full_name := full_name f; email := email f; phone := phone f;
     location := location f; linkedin := linkedin f; github := g;
     portfolio := portfolio f; education := education f;
     job_title := job_title f; job_description := job_description f;
     professional_summary := professional_summary f; skills := skills f;
     work_experience := work_experience f; projects := projects f;
     certifications := certifications f; achievements := a |}.

Definition SPACE : char := 32%N.
Definition LOW_LINE : char := 95%N.

(** * Properties *)

(** Small checks of the string operations against Python. *)

Example split_trailing_newline :
  split NEWLINE (of_string "a" ++ [NEWLINE] ++ [NEWLINE] ++ of_string "b" ++ [NEWLINE])
  = [of_string "a"; []; of_string "b"; []].
Proof. reflexivity. Qed.

Example split_empty : split NEWLINE [] = [[]].
Proof. reflexivity. Qed.

Example strip_both_ends :
  strip (of_string "  a b " ++ [9%N; 160%N]) = of_string "a b".
Proof. reflexivity. Qed.

Example replace_longer_pattern :
  replace (of_string "aa") (of_string "b") (of_string "aaaxaa") = of_string "baxb".
Proof. reflexivity. Qed.

Example contains_token :
  contains (of_string "01/") (of_string "NYC | 01/2020") = true /\
  contains (of_string "Present") (of_string "NYC | 01/2020") = false.
Proof. split; reflexivity. Qed.

Example isupper_examples :
  isupper Py_ascii (of_string "R&D 2020") = true /\
  isupper Py_ascii (of_string "2020") = false /\
  isupper Py_ascii (of_string "Acme") = false.
Proof. repeat split. Qed.

Example scenario_A_ends_in_newline :
  last scenario_A 0%N = NEWLINE /\ length (split NEWLINE scenario_A) = 11%nat.
Proof. split; reflexivity. Qed.

Section Loop.

Variable T : CaseTable.

Lemma loop_body_eq (st : LoopState) (raw : str) :
  loop_body T st raw =
  {| is_first_line := first_after (is_first_line st) raw;
     is_second_line := second_after (is_first_line st) (is_second_line st) raw;
     elements := elements st ++ [emitted T (is_first_line st) (is_second_line st) raw] |}.
Proof.
  unfold loop_body, emitted, first_after, second_after, style_for, late_style,
    name_rule, contact_rule, append.
  destruct (strip raw) as [|c line]; [reflexivity|].
  destruct (is_first_line st && (length (c :: line) <? 80)); [reflexivity|].
  destruct (is_second_line st && contains [VERTICAL_LINE] (c :: line)); [reflexivity|].
  destruct (isupper T (c :: line) && (3 <? length (c :: line))
            && (length (c :: line) <? 50)); [reflexivity|].
  destruct (contains [EM_DASH] (c :: line) && negb (startswith [BULLET] (c :: line)));
    [reflexivity|].
  destruct (startswith [BULLET] (c :: line)); [reflexivity|].
  destruct (contains [VERTICAL_LINE] (c :: line)
            && existsb (fun month => contains month (c :: line)) months); reflexivity.
Qed.

Lemma fold_loop_body (lines : list str) :
  forall st,
    elements (fold_left (loop_body T) lines st) =
    elements st ++ run T (is_first_line st) (is_second_line st) lines.
Proof.
  induction lines as [|raw rest IH]; intros st; simpl.
  - now rewrite app_nil_r.
  - rewrite IH, loop_body_eq. simpl. now rewrite <- app_assoc.
Qed.

Lemma story_run (resume_text full_name : str) :
  story (create_pdf T resume_text full_name) =
  run T true false (split NEWLINE resume_text).
Proof. unfold create_pdf. simpl. now rewrite fold_loop_body. Qed.

Lemma run_length (lines : list str) :
  forall f1 f2, length (run T f1 f2 lines) = length lines.
Proof. induction lines; intros; simpl; auto. Qed.

(** Every line yields one flowable, the one its iteration emits under the
    flags that hold when the loop reaches it. *)
Lemma run_nth (lines : list str) :
  forall i raw f1 f2,
    nth_error lines i = Some raw ->
    exists g1 g2, nth_error (run T f1 f2 lines) i = Some (emitted T g1 g2 raw).
Proof.
  induction lines as [|l rest IH]; intros [|i] raw f1 f2 H; simpl in *;
    try discriminate.
  - injection H as ->. now exists f1, f2.
  - eapply IH; eassumption.
Qed.

(** Blank lines leave both flags as they are. *)
Lemma run_blank_prefix (pre post : list str) :
  Forall (fun raw => strip raw = []) pre ->
  forall f1 f2,
    run T f1 f2 (pre ++ post) =
    map (fun _ => Spacer 1 ((8 # 100) * inch)) pre ++ run T f1 f2 post.
Proof.
  induction 1 as [|raw pre Hraw _ IH]; intros f1 f2; simpl; [reflexivity|].
  unfold emitted, first_after, second_after. rewrite Hraw. now rewrite IH.
Qed.

End Loop.

Lemma role_late_style (T : CaseTable) (line : str) :
  role_of_style (late_style T line) = late_role T line.
Proof.
  unfold late_style, late_role, rest_role, header_bounds.
  rewrite <- andb_assoc.
  destruct (isupper T line && _); [reflexivity|].
  destruct (contains [EM_DASH] line && _); [reflexivity|].
  destruct (startswith [BULLET] line); reflexivity.
Qed.

Lemma role_emitted (T : CaseTable) (f1 f2 : bool) (raw : str) :
  role (emitted T f1 f2 raw) = role_for T f1 f2 (strip raw).
Proof.
  unfold emitted, role_for, style_for.
  destruct (strip raw) as [|c line]; [reflexivity|]. simpl.
  destruct (name_rule f1 (c :: line)); [reflexivity|].
  destruct (contact_rule f2 (c :: line)); [reflexivity|].
  apply role_late_style.
Qed.

Lemma roles_run (T : CaseTable) (lines : list str) :
  forall f1 f2, map role (run T f1 f2 lines) = run_roles T f1 f2 lines.
Proof.
  induction lines as [|raw rest IH]; intros; simpl; [reflexivity|].
  now rewrite role_emitted, IH.
Qed.

Lemma roles_create_pdf (T : CaseTable) (resume_text full_name : str) :
  roles (create_pdf T resume_text full_name) =
  run_roles T true false (split NEWLINE resume_text).
Proof. unfold roles. now rewrite story_run, roles_run. Qed.

Lemma late_role_out_of_bounds (T : CaseTable) (line : str) :
  header_bounds line = false -> late_role T line = rest_role line.
Proof. unfold late_role. intros ->. now rewrite andb_false_r. Qed.

Lemma late_role_not_upper (T : CaseTable) (line : str) :
  isupper T line = false -> late_role T line = rest_role line.
Proof. unfold late_role. now intros ->. Qed.

Lemma role_for_flag (T : CaseTable) (f1 f2 : bool) (line : str) :
  role_for T f1 f2 line =
  match flag_role f1 f2 line with
  | Some r => r
  | None => late_role T line
  end.
Proof.
  unfold role_for, flag_role. destruct line as [|c line]; [reflexivity|].
  destruct (name_rule f1 (c :: line)); [reflexivity|].
  destruct (contact_rule f2 (c :: line)); reflexivity.
Qed.

Lemma late_role_eq (T : CaseTable) (line : str) :
  late_role T line =
  if isupper T line && header_bounds line then SectionHeader else rest_role line.
Proof. reflexivity. Qed.

(** *** Facts about [isupper] *)

Lemma isupper_two_or_more (T : CaseTable) (s : str) :
  (2 <=? length s) = true ->
  isupper T s =
  forallb (fun c => negb (Py_UNICODE_ISLOWER T c || Py_UNICODE_ISTITLE T c)) s
  && existsb (Py_UNICODE_ISUPPER T) s.
Proof.
  destruct s as [|a [|b s]]; simpl; intros H; try discriminate; reflexivity.
Qed.

Lemma isupper_has_lower (T : CaseTable) (s : str) :
  agrees_with_ascii T ->
  (2 <=? length s) = true ->
  existsb ascii_islower s = true ->
  isupper T s = false.
Proof.
  intros HT Hlen Hex. rewrite isupper_two_or_more by assumption.
  apply andb_false_iff. left.
  apply existsb_exists in Hex. destruct Hex as (c & Hin & Hc).
  apply not_true_is_false. intros Hall.
  rewrite forallb_forall in Hall. specialize (Hall c Hin).
  assert (Hlt : (c < 128)%N).
  { unfold ascii_islower in Hc. apply andb_prop in Hc. destruct Hc as [_ Hc].
    apply N.leb_le in Hc. lia. }
  destruct (HT c Hlt) as (Hl & _ & _).
  rewrite Hl, Hc in Hall. discriminate.
Qed.

Lemma isupper_ascii (T : CaseTable) (s : str) :
  agrees_with_ascii T ->
  forallb (fun c => c <? 128)%N s = true ->
  isupper T s = isupper Py_ascii s.
Proof.
  intros HT Hall. rewrite forallb_forall in Hall.
  assert (H : forall c, In c s ->
            Py_UNICODE_ISLOWER T c = ascii_islower c /\
            Py_UNICODE_ISUPPER T c = ascii_isupper c /\
            Py_UNICODE_ISTITLE T c = false).
  { intros c Hc. apply HT. apply N.ltb_lt. auto. }
  assert (Hf : forallb (fun c => negb (Py_UNICODE_ISLOWER T c || Py_UNICODE_ISTITLE T c)) s
               = forallb (fun c => negb (ascii_islower c || false)) s).
  { clear Hall. induction s as [|a s IH]; simpl; [reflexivity|].
    destruct (H a (or_introl eq_refl)) as (-> & _ & ->).
    rewrite IH; [reflexivity|]. intros c Hc. apply H. now right. }
  assert (He : existsb (Py_UNICODE_ISUPPER T) s = existsb ascii_isupper s).
  { clear Hall Hf. induction s as [|a s IH]; simpl; [reflexivity|].
    destruct (H a (or_introl eq_refl)) as (_ & -> & _).
    rewrite IH; [reflexivity|]. intros c Hc. apply H. now right. }
  destruct s as [|a [|b s]].
  - reflexivity.
  - simpl. destruct (H a (or_introl eq_refl)) as (_ & -> & _). reflexivity.
  - unfold isupper. rewrite Hf, He. reflexivity.
Qed.

Lemma isupper_uncased (T : CaseTable) (s : str) :
  (forall c, In c s -> cased T c = false) -> isupper T s = false.
Proof.
  intros H.
  assert (He : existsb (Py_UNICODE_ISUPPER T) s = false).
  { induction s as [|a s IH]; simpl; [reflexivity|].
    assert (Ha := H a (or_introl eq_refl)). unfold cased in Ha.
    apply orb_false_iff in Ha. destruct Ha as [Ha _].
    apply orb_false_iff in Ha. destruct Ha as [_ Ha]. rewrite Ha. simpl.
    apply IH. intros c Hc. apply H. now right. }
  destruct s as [|a [|b s]].
  - reflexivity.
  - simpl in *. now rewrite orb_false_r in He.
  - unfold isupper. rewrite He. apply andb_false_r.
Qed.

(** *** Evaluating the role of a given text *)

Ltac eval_closed t := let v := eval vm_compute in t in change t with v.

Ltac eval_flags :=
  repeat match goal with
    | |- context [first_after ?a ?r] => eval_closed (first_after a r)
    | |- context [second_after ?a ?b ?r] => eval_closed (second_after a b r)
    | |- context [strip ?r] => eval_closed (strip r)
    end;
  repeat match goal with
    | |- context [role_for ?T ?a ?b ?l] =>
        rewrite (role_for_flag T a b l); eval_closed (flag_role a b l); cbv iota
    end.

Ltac eval_late :=
  repeat match goal with
    | |- context [late_role ?T ?l] =>
        rewrite (late_role_eq T l);
        eval_closed (header_bounds l); eval_closed (rest_role l)
    end;
  rewrite ?andb_false_r, ?andb_true_r; cbv iota.

Ltac eval_roles text :=
  rewrite roles_create_pdf;
  eval_closed (split NEWLINE text);
  cbn [run_roles]; eval_flags; eval_late.

Lemma roles_length (T : CaseTable) (resume_text full_name : str) :
  length (roles (create_pdf T resume_text full_name)) =
  length (split NEWLINE resume_text).
Proof. unfold roles. now rewrite length_map, story_run, run_length. Qed.

Lemma role_of_style_not_blank (s : ParagraphStyle) : role_of_style s <> Blank.
Proof.
  unfold role_of_style.
  repeat match goal with |- context [if ?b then _ else _] => destruct b end;
    discriminate.
Qed.

(** Once [is_first_line] is cleared no iteration sets it again. *)
Lemma first_after_cleared (raw : str) : first_after false raw = false.
Proof. unfold first_after. now destruct (strip raw). Qed.

(** * The claims *)

(** C1 (the program departs from the claim). The claim: only the first
    non-blank line can become the name. The program clears [is_first_line]
    only inside the name branch, so a first line of 80 characters or more
    leaves the flag set and the next short line is styled as the name: on
    [long_first_line] the first line is body text, the flag is still set after
    it, and the second line is the name. *)
Theorem name_after_long_first_line (T : CaseTable) (full_name : str) :
  is_first_line (loop_body T initial (repeat 120%N 80)) = true /\
  roles (create_pdf T long_first_line full_name) = [Body; Name].
Proof.
  split.
  - rewrite loop_body_eq. reflexivity.
  - eval_roles long_first_line. reflexivity.
Qed.

(** C2 (the program departs from the claim). The claim: when the line after
    the name has no bar, the contact flag is cleared all the same and no later
    line is a contact line. The program clears [is_second_line] only inside
    the contact branch: on [late_bar_line] the line after the name has no bar
    and is body text, the flag is still set after it, and the date line that
    follows is styled as the contact line. *)
Theorem contact_after_barless_second_line (T : CaseTable) (full_name : str) :
  is_second_line
    (fold_left (loop_body T)
       [of_string "JANE DOE";
        of_string "Software engineer with ten years of experience in compilers"]
       initial) = true /\
  roles (create_pdf T late_bar_line full_name) = [Name; Body; ContactLine].
Proof.
  split.
  - cbn [fold_left]. rewrite !loop_body_eq. reflexivity.
  - eval_roles late_bar_line. reflexivity.
Qed.

(** C3. Classification is total: the text is split into lines, every line
    yields exactly one flowable and so one role, in order; there are as many
    flowables and roles as lines; a line is given the role [Blank] exactly
    when it is empty after trimming. *)
Theorem classify_total (T : CaseTable) (resume_text full_name : str) :
  let lines := split NEWLINE resume_text in
  let d := create_pdf T resume_text full_name in
  length (story d) = length lines /\
  length (roles d) = length lines /\
  forall i raw,
    nth_error lines i = Some raw ->
    exists e,
      nth_error (story d) i = Some e /\
      nth_error (roles d) i = Some (role e) /\
      (strip raw = [] -> e = Spacer 1 ((8 # 100) * inch) /\ role e = Blank) /\
      (strip raw <> [] ->
       exists style, e = Paragraph (escape (strip raw)) style /\ role e <> Blank).
Proof.
  cbv zeta. split; [|split].
  - now rewrite story_run, run_length.
  - apply roles_length.
  - intros i raw Hi. rewrite story_run.
    destruct (run_nth T (split NEWLINE resume_text) i true false Hi)
      as (g1 & g2 & He).
    exists (emitted T g1 g2 raw). split; [exact He|]. split.
    + unfold roles. rewrite story_run. now apply map_nth_error.
    + unfold emitted. destruct (strip raw) as [|c line].
      * split; [intros _; split; reflexivity | intros H; now elim H].
      * split; [discriminate|]. intros _. eexists. split; [reflexivity|].
        apply role_of_style_not_blank.
Qed.

(** C4, as the claim has it, fails: the text of scenario A ends in a newline,
    so it has eleven lines, and no case table makes the roles the ten of the
    claim. *)
Lemma scenario_A_not_ten_roles :
  ~ exists T full_name,
      roles (create_pdf T scenario_A full_name) =
      [Name; ContactLine; Blank; SectionHeader; Body; Blank; SectionHeader;
       SubHeading; Body; Bullet].
Proof.
  intros (T & full_name & H). apply (f_equal (@length Role)) in H.
  rewrite roles_length in H. vm_compute in H. discriminate.
Qed.

(** C4, amended. On the text of scenario A the roles are the ten of the claim
    followed by [Blank], the role of the empty piece after the last
    newline. *)
Theorem scenario_A_roles (T : CaseTable) (full_name : str) :
  agrees_with_ascii T ->
  roles (create_pdf T scenario_A full_name) =
  [Name; ContactLine; Blank; SectionHeader; Body; Blank; SectionHeader;
   SubHeading; Body; Bullet; Blank].
Proof.
  intros HT. eval_roles scenario_A.
  repeat match goal with
    | |- context [isupper T ?l] =>
        first [ rewrite (@isupper_has_lower T l HT) by (vm_compute; reflexivity)
              | rewrite (@isupper_ascii T l HT) by (vm_compute; reflexivity);
                eval_closed (isupper Py_ascii l) ]
    end.
  reflexivity.
Qed.

Lemma scenario_A_roles_witness :
  agrees_with_ascii Py_ascii /\
  roles (create_pdf Py_ascii scenario_A []) =
  [Name; ContactLine; Blank; SectionHeader; Body; Blank; SectionHeader;
   SubHeading; Body; Bullet; Blank].
Proof.
  split.
  - intros c _. repeat split.
  - apply scenario_A_roles. intros c _. repeat split.
Defined.

(** C5. A line that reaches the rules after the name and contact rules, is
    upper case, has more than 3 and fewer than 50 characters and contains an
    em dash gets the heading style (role [SectionHeader]), not the subheading
    style: the upper-case test comes first. *)
Theorem upper_case_before_em_dash (T : CaseTable) (st : LoopState) (raw : str) :
  name_rule (is_first_line st) (strip raw) = false ->
  contact_rule (is_second_line st) (strip raw) = false ->
  isupper T (strip raw) = true ->
  (3 < length (strip raw) < 50)%nat ->
  contains [EM_DASH] (strip raw) = true ->
  loop_body T st raw = append st (Paragraph (escape (strip raw)) heading_style) /\
  role (Paragraph (escape (strip raw)) heading_style) = SectionHeader /\
  role (Paragraph (escape (strip raw)) heading_style) <> SubHeading.
Proof.
  intros Hname Hcontact Hup [Hlo Hhi] _.
  split; [|split; [reflexivity | discriminate]].
  unfold loop_body. unfold name_rule in Hname. unfold contact_rule in Hcontact.
  destruct (strip raw) as [|c line] eqn:E; [simpl in Hlo; lia|].
  rewrite Hname, Hcontact, Hup.
  apply Nat.ltb_lt in Hlo, Hhi. rewrite Hlo, Hhi. reflexivity.
Qed.

Lemma upper_case_before_em_dash_witness :
  loop_body Py_ascii steady upper_em_dash_line =
  append steady (Paragraph (escape (strip upper_em_dash_line)) heading_style) /\
  role (Paragraph (escape (strip upper_em_dash_line)) heading_style) = SectionHeader /\
  role (Paragraph (escape (strip upper_em_dash_line)) heading_style) <> SubHeading.
Proof.
  apply (@upper_case_before_em_dash Py_ascii steady upper_em_dash_line);
    try reflexivity.
  vm_compute. split; lia.
Defined.

(** *** Escaping *)

Lemma replace_one_char (c : char) (new s : str) :
  replace [c] new s = flat_map (fun x => if (c =? x)%N then new else [x]) s.
Proof.
  unfold replace. induction s as [|x s IH]; [reflexivity|].
  cbn [replace_from flat_map startswith length Nat.sub].
  rewrite andb_true_r. destruct (c =? x)%N; rewrite IH; reflexivity.
Qed.

Lemma flat_map_flat_map {A B C : Type} (f : A -> list B) (g : B -> list C) (l : list A) :
  flat_map g (flat_map f l) = flat_map (fun x => flat_map g (f x)) l.
Proof.
  induction l as [|a l IH]; simpl; [reflexivity|].
  now rewrite flat_map_app, IH.
Qed.

Lemma escape_by_char (line : str) : escape line = flat_map escape_char line.
Proof.
  unfold escape. rewrite !replace_one_char, !flat_map_flat_map.
  apply flat_map_ext. intros c. unfold escape_char.
  unfold AMPERSAND, LESS_THAN, GREATER_THAN.
  destruct (N.eqb_spec 38 c) as [<-|H38]; [reflexivity|].
  rewrite (proj2 (N.eqb_neq c 38)) by congruence.
  cbn [flat_map app]. rewrite app_nil_r.
  destruct (N.eqb_spec 60 c) as [<-|H60]; [reflexivity|].
  rewrite (proj2 (N.eqb_neq c 60)) by congruence.
  cbn [flat_map app].
  destruct (N.eqb_spec 62 c) as [<-|H62]; [reflexivity|].
  rewrite (proj2 (N.eqb_neq c 62)) by congruence. reflexivity.
Qed.

(** The cases of [escape_char]. *)
Lemma escape_char_cases (c : char) :
  (c = AMPERSAND /\ escape_char c = of_string "&amp;") \/
  (c = LESS_THAN /\ escape_char c = of_string "&lt;") \/
  (c = GREATER_THAN /\ escape_char c = of_string "&gt;") \/
  (c <> AMPERSAND /\ c <> LESS_THAN /\ c <> GREATER_THAN /\ escape_char c = [c]).
Proof.
  unfold escape_char.
  destruct (N.eqb_spec c AMPERSAND); [now left|].
  destruct (N.eqb_spec c LESS_THAN); [now right; left|].
  destruct (N.eqb_spec c GREATER_THAN); [now right; right; left|].
  now right; right; right.
Qed.

Lemma escape_no_angle (line : str) (x : char) :
  In x (escape line) -> x <> LESS_THAN /\ x <> GREATER_THAN.
Proof.
  rewrite escape_by_char, in_flat_map. intros (c & _ & Hx).
  destruct (escape_char_cases c)
    as [(_ & E)|[(_ & E)|[(_ & E)|(_ & Hlt & Hgt & E)]]]; rewrite E in Hx.
  1-3: simpl in Hx;
       repeat (destruct Hx as [<-|Hx]; [split; discriminate|]); contradiction.
  destruct Hx as [<-|[]]. now split.
Qed.

Lemma unescape_escape_char (c : char) (rest : str) :
  unescape_from 0 (escape_char c ++ rest) = c :: unescape_from 0 rest.
Proof.
  destruct (escape_char_cases c)
    as [(-> & E)|[(-> & E)|[(-> & E)|(Hamp & _ & _ & E)]]]; rewrite E.
  1-3: reflexivity.
  cbn [app unescape_from of_string startswith].
  assert (H : ((N_of_ascii "&"%char) =? c)%N = false).
  { apply N.eqb_neq. intros <-. now apply Hamp. }
  rewrite H. reflexivity.
Qed.

Lemma unescape_escape (line : str) : unescape (escape line) = line.
Proof.
  rewrite escape_by_char. unfold unescape.
  induction line as [|c line IH]; [reflexivity|].
  cbn [flat_map]. now rewrite unescape_escape_char, IH.
Qed.

Lemma contains_one_char (d : char) (s : str) :
  contains [d] s = existsb (N.eqb d) s.
Proof.
  induction s as [|x s IH]; [reflexivity|].
  cbn [contains startswith existsb]. now rewrite andb_true_r, IH.
Qed.

Lemma existsb_flat_map {A B : Type} (p : B -> bool) (f : A -> list B) (l : list A) :
  existsb p (flat_map f l) = existsb (fun x => existsb p (f x)) l.
Proof.
  induction l as [|a l IH]; simpl; [reflexivity|].
  now rewrite existsb_app, IH.
Qed.

(** A character that is none of [&], [<], [>] and no letter of the entity
    names occurs in the escaped text exactly when it occurs in the line. *)
Lemma contains_escape (d : char) (line : str) :
  existsb (N.eqb d) (of_string "&amp;&lt;&gt;<>") = false ->
  contains [d] (escape line) = contains [d] line.
Proof.
  intros Hd. rewrite !contains_one_char, escape_by_char, existsb_flat_map.
  induction line as [|c line IH]; [reflexivity|].
  cbn [existsb]. rewrite IH. f_equal.
  let l := eval vm_compute in (of_string "&amp;&lt;&gt;<>") in
  change (of_string "&amp;&lt;&gt;<>") with l in Hd.
  cbn [existsb] in Hd.
  repeat (apply orb_false_elim in Hd; destruct Hd as [? Hd]).
  destruct (escape_char_cases c)
    as [(-> & E)|[(-> & E)|[(-> & E)|(_ & _ & _ & E)]]]; rewrite E.
  - change (of_string "&amp;") with [38; 97; 109; 112; 59]%N.
    unfold AMPERSAND. cbn [existsb].
    repeat match goal with H : (d =? _)%N = false |- _ => rewrite ?H; clear H end.
    reflexivity.
  - change (of_string "&lt;") with [38; 108; 116; 59]%N.
    unfold LESS_THAN. cbn [existsb].
    repeat match goal with H : (d =? _)%N = false |- _ => rewrite ?H; clear H end.
    reflexivity.
  - change (of_string "&gt;") with [38; 103; 116; 59]%N.
    unfold GREATER_THAN. cbn [existsb].
    repeat match goal with H : (d =? _)%N = false |- _ => rewrite ?H; clear H end.
    reflexivity.
  - cbn [existsb]. apply orb_false_r.
Qed.

Lemma startswith_escape (d : char) (line : str) :
  d <> AMPERSAND -> d <> LESS_THAN -> d <> GREATER_THAN ->
  startswith [d] (escape line) = startswith [d] line.
Proof.
  intros Ha Hl Hg. rewrite escape_by_char.
  destruct line as [|c line]; [reflexivity|]. cbn [flat_map].
  destruct (escape_char_cases c)
    as [(-> & E)|[(-> & E)|[(-> & E)|(_ & _ & _ & E)]]]; rewrite E;
    cbn [of_string app startswith]; rewrite ?andb_true_r; try reflexivity.
  - transitivity false; [|symmetry]; apply N.eqb_neq; [exact Ha | exact Hl].
  - transitivity false; [|symmetry]; apply N.eqb_neq; [exact Ha | exact Hg].
Qed.

Lemma loop_body_elements (T : CaseTable) (st : LoopState) (raw : str) :
  strip raw <> [] ->
  elements (loop_body T st raw) =
  elements st ++
  [Paragraph (escape (strip raw))
     (style_for T (is_first_line st) (is_second_line st) (strip raw))].
Proof.
  intros H. rewrite loop_body_eq. cbn [elements]. unfold emitted.
  destruct (strip raw); [now elim H | reflexivity].
Qed.

(** The escaping of the specification's example, a bold tag. *)
Example escape_bold_tag : escape (of_string "<b>") = of_string "&lt;b&gt;".
Proof. reflexivity. Qed.

(** C6, as the claim has it, fails in its last part: the tests do not give the
    same result on the escaped text. An upper-case header with an ampersand is
    a section header for the program, and body text when the tests read the
    escaped text, which has the lower-case letters of [&amp;]. *)
Lemma tests_on_escaped_text_differ :
  roles (create_pdf Py_ascii ampersand_header []) =
    [Name; ContactLine; SectionHeader] /\
  roles (create_pdf_on_escaped Py_ascii ampersand_header []) =
    [Name; ContactLine; Body].
Proof. split; vm_compute; reflexivity. Qed.

(** C6, amended. For every non-blank line the paragraph carries the escaped
    text of the trimmed line: each [&], [<], [>] replaced by [&amp;], [&lt;],
    [&gt;], so that the text has no [<] or [>] left and reads back as the
    trimmed line; the style is decided on the trimmed line, not on the escaped
    text. Of the tests, those for the bar, the em dash and the bullet give the
    same answer on the escaped text; nothing of the kind is said of the length
    bounds and of the upper-case test. *)
Theorem escaped_text_unescaped_tests (T : CaseTable) (st : LoopState) (raw : str) :
  strip raw <> [] ->
  elements (loop_body T st raw) =
    elements st ++
    [Paragraph (escape (strip raw))
       (style_for T (is_first_line st) (is_second_line st) (strip raw))] /\
  escape (strip raw) = flat_map escape_char (strip raw) /\
  (forall x, In x (escape (strip raw)) -> x <> LESS_THAN /\ x <> GREATER_THAN) /\
  unescape (escape (strip raw)) = strip raw /\
  contains [VERTICAL_LINE] (escape (strip raw)) = contains [VERTICAL_LINE] (strip raw) /\
  contains [EM_DASH] (escape (strip raw)) = contains [EM_DASH] (strip raw) /\
  startswith [BULLET] (escape (strip raw)) = startswith [BULLET] (strip raw).
Proof.
  intros H. split; [|split; [|split; [|split]]].
  - now apply loop_body_elements.
  - apply escape_by_char.
  - intros x Hx. now apply escape_no_angle in Hx.
  - apply unescape_escape.
  - split; [|split].
    + now apply contains_escape.
    + now apply contains_escape.
    + now apply startswith_escape.
Qed.

Lemma escaped_text_unescaped_tests_witness :
  strip tagged_line <> [] /\
  elements (loop_body Py_ascii steady tagged_line) =
    [Paragraph (of_string "&lt;b&gt;R&amp;D | Labs&lt;/b&gt;") normal_style] /\
  unescape (of_string "&lt;b&gt;R&amp;D | Labs&lt;/b&gt;") = of_string "<b>R&D | Labs</b>".
Proof.
  split; [vm_compute; discriminate|].
  destruct (@escaped_text_unescaped_tests Py_ascii steady tagged_line)
    as (He & _ & _ & Hu & _); [vm_compute; discriminate|].
  split; [exact He | exact Hu].
Defined.

(** C7, as the claim has it, fails: an upper-case first line of 90 characters
    that contains an em dash is not body text but a subheading. *)
Lemma long_upper_line_is_subheading :
  isupper Py_ascii (strip long_upper_line) = true /\
  length (strip long_upper_line) = 90%nat /\
  roles (create_pdf Py_ascii long_upper_line []) = [SubHeading].
Proof. repeat split; vm_compute; reflexivity. Qed.

(** C7, amended. When the first non-blank line of the text is upper case and
    90 characters long after trimming, it is neither the name nor a section
    header: it goes on to the rules after the upper-case rule, which make it a
    subheading when it contains an em dash and does not start with a bullet,
    a bullet when it starts with one, and body text otherwise. *)
Theorem long_upper_first_line
    (T : CaseTable) (resume_text full_name : str)
    (pre : list str) (raw : str) (post : list str) :
  split NEWLINE resume_text = pre ++ raw :: post ->
  Forall (fun l => strip l = []) pre ->
  isupper T (strip raw) = true ->
  length (strip raw) = 90%nat ->
  nth_error (roles (create_pdf T resume_text full_name)) (length pre) =
    Some (rest_role (strip raw)) /\
  rest_role (strip raw) <> Name /\
  rest_role (strip raw) <> SectionHeader /\
  (contains [EM_DASH] (strip raw) = false ->
   startswith [BULLET] (strip raw) = false ->
   rest_role (strip raw) = Body).
Proof.
  intros Hsplit Hpre _ Hlen. split; [|split; [|split]].
  - rewrite roles_create_pdf, Hsplit, <- roles_run, run_blank_prefix by assumption.
    rewrite map_app, nth_error_app2 by (now rewrite !length_map).
    rewrite !length_map, Nat.sub_diag. cbn [run map nth_error].
    rewrite role_emitted, role_for_flag.
    assert (E : flag_role true false (strip raw) = None).
    { unfold flag_role, name_rule. destruct (strip raw); [discriminate|].
      rewrite Hlen. reflexivity. }
    rewrite E. f_equal. apply late_role_out_of_bounds.
    unfold header_bounds. rewrite Hlen. reflexivity.
  - unfold rest_role.
    repeat match goal with |- context [if ?b then _ else _] => destruct b end;
      discriminate.
  - unfold rest_role.
    repeat match goal with |- context [if ?b then _ else _] => destruct b end;
      discriminate.
  - intros He Hb. unfold rest_role. now rewrite He, Hb.
Qed.

Lemma long_upper_first_line_witness :
  nth_error (roles (create_pdf Py_ascii blank_then_capitals [])) 2 = Some Body.
Proof.
  destruct (@long_upper_first_line Py_ascii blank_then_capitals []
              [[]; of_string "   "] (repeat 65%N 90) [])
    as (H & _ & _ & HB).
  - vm_compute. reflexivity.
  - repeat constructor.
  - vm_compute. reflexivity.
  - vm_compute. reflexivity.
  - rewrite <- HB; [exact H | reflexivity | reflexivity].
Defined.

(** C8. The date branch has no effect on the output: for every text the
    program builds the same document as the variant without the branch, since
    the branch and the final [else] append the same paragraph with the same
    style. *)
Theorem date_branch_is_dead (T : CaseTable) (resume_text full_name : str) :
  create_pdf T resume_text full_name =
  create_pdf_without_date_branch T resume_text full_name.
Proof.
  assert (Hbody : forall st raw,
             loop_body T st raw = loop_body_without_date_branch T st raw).
  { intros st raw. unfold loop_body, loop_body_without_date_branch.
    destruct (strip raw) as [|c line]; [reflexivity|].
    destruct (contains [VERTICAL_LINE] (c :: line)
              && existsb (fun month => contains month (c :: line)) months);
      reflexivity. }
  unfold create_pdf, create_pdf_without_date_branch. f_equal. f_equal.
  generalize initial.
  induction (split NEWLINE resume_text) as [|raw rest IH]; intros st;
    [reflexivity|].
  cbn [fold_left]. now rewrite Hbody, IH.
Qed.

(** C9. For every call the document has the US Letter page size (8.5 by 11
    inches, 612 by 792 points) and margins of 0.75 inch (54 points) on the
    left, right, top and bottom. *)
Theorem page_geometry (T : CaseTable) (resume_text full_name : str) :
  let d := create_pdf T resume_text full_name in
  pagesize d = letter /\
  (fst (pagesize d) == (17 # 2) * inch /\ snd (pagesize d) == 11 * inch)%Q /\
  (fst (pagesize d) == 612 /\ snd (pagesize d) == 792)%Q /\
  (leftMargin d == (3 # 4) * inch /\ rightMargin d == (3 # 4) * inch /\
   topMargin d == (3 # 4) * inch /\ bottomMargin d == (3 # 4) * inch)%Q /\
  (leftMargin d == 54 /\ rightMargin d == 54 /\
   topMargin d == 54 /\ bottomMargin d == 54)%Q.
Proof. cbv zeta. repeat split; reflexivity. Qed.

(** C10. A non-blank line without any cased character is never given the
    heading style, whatever its length and whatever the flags: [isupper] is
    false on it. When neither flag rule takes the line, it gets the style of
    the rules that follow: subheading, bullet or body text. *)
Theorem uncased_line_never_header (T : CaseTable) (st : LoopState) (raw : str) :
  strip raw <> [] ->
  forallb (fun c => negb (cased T c)) (strip raw) = true ->
  isupper T (strip raw) = false /\
  exists style,
    elements (loop_body T st raw) =
      elements st ++ [Paragraph (escape (strip raw)) style] /\
    role (Paragraph (escape (strip raw)) style) <> SectionHeader /\
    (name_rule (is_first_line st) (strip raw) = false ->
     contact_rule (is_second_line st) (strip raw) = false ->
     role (Paragraph (escape (strip raw)) style) = rest_role (strip raw) /\
     (rest_role (strip raw) = SubHeading \/ rest_role (strip raw) = Bullet \/
      rest_role (strip raw) = Body)).
Proof.
  intros Hne Hun.
  assert (Hup : isupper T (strip raw) = false).
  { apply isupper_uncased. intros c Hc. rewrite forallb_forall in Hun.
    apply negb_true_iff. now apply Hun. }
  split; [exact Hup|].
  eexists. split; [now apply loop_body_elements|].
  cbn [role]. unfold style_for.
  destruct (name_rule (is_first_line st) (strip raw)).
  { split; [discriminate | discriminate]. }
  destruct (contact_rule (is_second_line st) (strip raw)).
  { split; [discriminate | discriminate]. }
  rewrite role_late_style, late_role_not_upper by exact Hup.
  assert (Hrest : rest_role (strip raw) = SubHeading \/
                  rest_role (strip raw) = Bullet \/ rest_role (strip raw) = Body).
  { unfold rest_role.
    repeat match goal with |- context [if ?b then _ else _] => destruct b end;
      auto. }
  split.
  - destruct Hrest as [-> | [-> | ->]]; discriminate.
  - intros _ _. split; [reflexivity | exact Hrest].
Qed.

Lemma uncased_line_never_header_witness :
  isupper Py_ascii (strip digits_line) = false /\
  exists style,
    elements (loop_body Py_ascii steady digits_line) =
      elements steady ++ [Paragraph (escape (strip digits_line)) style] /\
    role (Paragraph (escape (strip digits_line)) style) <> SectionHeader /\
    (name_rule (is_first_line steady) (strip digits_line) = false ->
     contact_rule (is_second_line steady) (strip digits_line) = false ->
     role (Paragraph (escape (strip digits_line)) style) = rest_role (strip digits_line) /\
     (rest_role (strip digits_line) = SubHeading \/
      rest_role (strip digits_line) = Bullet \/
      rest_role (strip digits_line) = Body)).
Proof.
  apply (@uncased_line_never_header Py_ascii steady digits_line).
  - vm_compute. discriminate.
  - vm_compute. reflexivity.
Defined.

(** * Further properties of [create_pdf] and of the string operations it calls *)

(** ** [strip] *)

Lemma lstrip_split (s : str) :
  exists pre,
    s = pre ++ lstrip s /\ forallb Py_UNICODE_ISSPACE pre = true /\
    starts_unspaced (lstrip s).
Proof.
  induction s as [|c s (pre & E & Hpre & Hs)]; [now exists []|].
  cbn [lstrip]. destruct (Py_UNICODE_ISSPACE c) eqn:Hc.
  - exists (c :: pre). cbn [app forallb]. rewrite Hc, Hpre. now rewrite <- E.
  - exists []. cbn. now rewrite Hc.
Qed.

Lemma lstrip_unspaced (s : str) : starts_unspaced s -> lstrip s = s.
Proof. destruct s as [|c s]; [reflexivity|]. cbn. now intros ->. Qed.

Lemma lstrip_all_space (s : str) :
  lstrip s = [] <-> forallb Py_UNICODE_ISSPACE s = true.
Proof.
  induction s as [|c s IH]; [now split|].
  cbn [lstrip forallb]. destruct (Py_UNICODE_ISSPACE c); [exact IH|].
  split; discriminate.
Qed.

Lemma forallb_rev {A : Type} (p : A -> bool) (l : list A) :
  forallb p (rev l) = forallb p l.
Proof.
  induction l as [|a l IH]; [reflexivity|].
  cbn [rev forallb]. rewrite forallb_app, IH. cbn. now rewrite andb_true_r, andb_comm.
Qed.

Lemma rstrip_split (s : str) :
  exists post,
    s = rstrip s ++ post /\ forallb Py_UNICODE_ISSPACE post = true /\
    starts_unspaced (rev (rstrip s)).
Proof.
  unfold rstrip. destruct (lstrip_split (rev s)) as (pre & E & Hpre & Hs).
  exists (rev pre). rewrite rev_involutive. repeat split; [| |exact Hs].
  - rewrite <- rev_app_distr, <- E. now rewrite rev_involutive.
  - now rewrite forallb_rev.
Qed.

Lemma rstrip_keeps_head (s : str) :
  starts_unspaced s -> starts_unspaced (rstrip s).
Proof.
  intros H. destruct (rstrip_split s) as (post & E & _ & _).
  destruct (rstrip s) as [|c r]; [exact I|].
  rewrite E in H. exact H.
Qed.

(** X1. What [strip] returns: the text is some whitespace, then the stripped
    text, then some whitespace; the stripped text neither begins nor ends
    with a whitespace character; it is empty exactly when the text has only
    whitespace characters; and stripping again changes nothing. *)
Theorem strip_characterised (s : str) :
  (exists pre post,
      s = pre ++ strip s ++ post /\
      forallb Py_UNICODE_ISSPACE pre = true /\
      forallb Py_UNICODE_ISSPACE post = true) /\
  starts_unspaced (strip s) /\
  ends_unspaced (strip s) /\
  (strip s = [] <-> forallb Py_UNICODE_ISSPACE s = true) /\
  strip (strip s) = strip s.
Proof.
  unfold strip.
  destruct (lstrip_split s) as (pre & E1 & Hpre & Hl).
  destruct (rstrip_split (lstrip s)) as (post & E2 & Hpost & Hr).
  assert (Hhead : starts_unspaced (rstrip (lstrip s)))
    by now apply rstrip_keeps_head.
  split; [|split; [|split; [|split]]].
  - exists pre, post. repeat split; try assumption.
    now rewrite <- E2, <- E1.
  - exact Hhead.
  - exact Hr.
  - split.
    + intros H0. rewrite H0 in E2. cbn [app] in E2.
      rewrite E1, forallb_app, Hpre, E2. exact Hpost.
    + intros Hall. apply lstrip_all_space in Hall. rewrite Hall. reflexivity.
  - rewrite (lstrip_unspaced _ Hhead).
    unfold rstrip at 1. unfold ends_unspaced in Hr.
    rewrite (lstrip_unspaced _ Hr). apply rev_involutive.
Qed.

(** ** [split] *)

Lemma split_nonempty (sep : char) (s : str) : split sep s <> [].
Proof.
  destruct s as [|c s]; [discriminate|]. cbn [split].
  destruct (c =? sep)%N; [discriminate|].
  destruct (split sep s); discriminate.
Qed.

Lemma split_cons_other (sep c : char) (s : str) :
  (c =? sep)%N = false ->
  exists piece pieces,
    split sep s = piece :: pieces /\ split sep (c :: s) = (c :: piece) :: pieces.
Proof.
  intros H. cbn [split]. rewrite H.
  destruct (split sep s) as [|piece pieces] eqn:E; [now apply split_nonempty in E|].
  now exists piece, pieces.
Qed.

(** X2. [split] loses nothing and cuts at every newline: joining the pieces
    with newlines gives the text back, no piece contains a newline, and there
    is one piece more than there are newlines in the text. *)
Theorem split_join (s : str) :
  lines_text (split NEWLINE s) = s /\
  Forall (fun piece => ~ In NEWLINE piece) (split NEWLINE s) /\
  length (split NEWLINE s) = S (count_occ N.eq_dec s NEWLINE).
Proof.
  induction s as [|c s (IHjoin & IHfree & IHlen)].
  - repeat split. constructor; [intros []|constructor].
  - destruct (N.eqb_spec c NEWLINE) as [->|Hc].
    + cbn [split]. rewrite N.eqb_refl. split; [|split].
      * destruct (split NEWLINE s) as [|piece pieces] eqn:E;
          [now apply split_nonempty in E|].
        cbn [lines_text app flat_map] in *. now rewrite IHjoin.
      * constructor; [intros []|exact IHfree].
      * cbn [length count_occ]. destruct (N.eq_dec NEWLINE NEWLINE); [|congruence].
        now rewrite IHlen.
    + assert (Hb : (c =? NEWLINE)%N = false) by now apply N.eqb_neq.
      destruct (@split_cons_other NEWLINE c s Hb) as (piece & pieces & E & ->).
      rewrite E in *. split; [|split].
      * cbn [lines_text app] in *. now rewrite IHjoin.
      * inversion IHfree as [|? ? Hp Hps]; subst. constructor; [|exact Hps].
        intros [->|Hin]; [congruence | now apply Hp].
      * cbn [length count_occ] in *. destruct (N.eq_dec c NEWLINE); [congruence|].
        exact IHlen.
Qed.

(** ** Where the name and contact styles go *)

Lemma late_role_not_flag_role (T : CaseTable) (line : str) :
  late_role T line <> Name /\ late_role T line <> ContactLine.
Proof.
  unfold late_role, rest_role.
  repeat match goal with |- context [if ?b then _ else _] => destruct b end;
    split; discriminate.
Qed.

Lemma role_for_cases (T : CaseTable) (f1 f2 : bool) (raw : str) :
  role_for T f1 f2 (strip raw) =
  if f1 && namable raw then Name
  else if f2 && has_bar raw then ContactLine
  else match strip raw with
       | [] => Blank
       | _ :: _ => late_role T (strip raw)
       end.
Proof.
  unfold role_for, namable, has_bar, name_rule, contact_rule.
  destruct (strip raw) as [|c line].
  - now rewrite andb_false_r, andb_false_r.
  - reflexivity.
Qed.

Lemma first_after_eq (f1 : bool) (raw : str) :
  first_after f1 raw = f1 && negb (namable raw).
Proof.
  unfold first_after, namable, name_rule.
  destruct (strip raw) as [|c line]; [now rewrite andb_true_r|].
  destruct f1; [|reflexivity]. cbn [andb].
  now destruct (length (c :: line) <? 80).
Qed.

Lemma second_after_eq (f1 f2 : bool) (raw : str) :
  second_after f1 f2 raw =
  if f1 && namable raw then true else f2 && negb (has_bar raw).
Proof.
  unfold second_after, namable, has_bar, name_rule, contact_rule.
  destruct (strip raw) as [|c line].
  - rewrite andb_false_r. cbn. now rewrite andb_true_r.
  - destruct (f1 && (length (c :: line) <? 80)); [reflexivity|].
    destruct f2; [|reflexivity]. cbn [andb].
    now destruct (contains [VERTICAL_LINE] (c :: line)).
Qed.

(** The head of a run of roles, in the terms of [namable] and [has_bar]. *)
Lemma run_roles_cons (T : CaseTable) (f1 f2 : bool) (raw : str) (rest : list str) :
  run_roles T f1 f2 (raw :: rest) =
  role_for T f1 f2 (strip raw)
  :: run_roles T (f1 && negb (namable raw))
       (if f1 && namable raw then true else f2 && negb (has_bar raw)) rest.
Proof. cbn [run_roles]. now rewrite first_after_eq, second_after_eq. Qed.

Lemma role_for_not_flag_role (T : CaseTable) (raw : str) :
  role_for T false false (strip raw) <> Name /\
  role_for T false false (strip raw) <> ContactLine.
Proof.
  rewrite role_for_cases. cbn [andb].
  destruct (strip raw); [split; discriminate | apply late_role_not_flag_role].
Qed.

Lemma option_map_S_eq (o : option nat) (i : nat) :
  option_map S o = Some (S i) <-> o = Some i.
Proof.
  destruct o as [j|]; cbn; [|split; discriminate].
  split; intros H; injection H as ->; reflexivity.
Qed.

Lemma option_map_S_zero (o : option nat) : option_map S o <> Some 0%nat.
Proof. destruct o; discriminate. Qed.

Section Flags.

Variable T : CaseTable.

Lemma no_name_once_cleared (lines : list str) :
  forall f2 i, nth_error (run_roles T false f2 lines) i <> Some Name.
Proof.
  induction lines as [|raw rest IH]; intros f2 [|i];
    try (cbn; discriminate); rewrite run_roles_cons; cbn [andb nth_error].
  - rewrite role_for_cases. cbn [andb].
    destruct (f2 && has_bar raw); [discriminate|].
    destruct (strip raw); [discriminate|].
    intros H. injection H. apply late_role_not_flag_role.
  - apply IH.
Qed.

Lemma name_at_first_namable (lines : list str) :
  forall f2 i,
    nth_error (run_roles T true f2 lines) i = Some Name <->
    first_index namable lines = Some i.
Proof.
  induction lines as [|raw rest IH]; intros f2 i.
  - destruct i; cbn; split; discriminate.
  - rewrite run_roles_cons, role_for_cases. cbn [andb first_index].
    destruct (namable raw) eqn:Hn; cbn [negb].
    + destruct i as [|i]; cbn [nth_error]; [now split|].
      split; [|discriminate]. intros H. now apply no_name_once_cleared in H.
    + destruct i as [|i]; cbn [nth_error].
      * split; [|intros H; now apply option_map_S_zero in H].
        destruct (f2 && has_bar raw); [discriminate|].
        destruct (strip raw); [discriminate|].
        intros H. injection H. intros H'. now apply late_role_not_flag_role in H'.
      * rewrite option_map_S_eq. apply IH.
Qed.

Lemma no_contact_once_cleared (lines : list str) :
  forall i, nth_error (run_roles T false false lines) i <> Some ContactLine.
Proof.
  induction lines as [|raw rest IH]; intros [|i];
    try (cbn; discriminate); rewrite run_roles_cons; cbn [andb nth_error].
  - intros H. injection H. apply role_for_not_flag_role.
  - apply IH.
Qed.

Lemma contact_at_first_bar (lines : list str) :
  forall i,
    nth_error (run_roles T false true lines) i = Some ContactLine <->
    first_index has_bar lines = Some i.
Proof.
  induction lines as [|raw rest IH]; intros i.
  - destruct i; cbn; split; discriminate.
  - rewrite run_roles_cons, role_for_cases. cbn [andb first_index].
    destruct (has_bar raw) eqn:Hb; cbn [negb].
    + destruct i as [|i]; cbn [nth_error]; [now split|].
      split; [|discriminate]. intros H. now apply no_contact_once_cleared in H.
    + destruct i as [|i]; cbn [nth_error].
      * split; [|intros H; now apply option_map_S_zero in H].
        destruct (strip raw); [discriminate|].
        intros H. injection H. intros H'. now apply late_role_not_flag_role in H'.
      * rewrite option_map_S_eq. apply IH.
Qed.

Lemma contact_after_name (lines : list str) :
  forall i,
    nth_error (run_roles T true false lines) i = Some ContactLine <->
    exists k,
      first_index namable lines = Some k /\ (k < i)%nat /\
      first_index has_bar (skipn (S k) lines) = Some (i - S k)%nat.
Proof.
  induction lines as [|raw rest IH]; intros i.
  - destruct i; cbn; (split; [discriminate|]); intros (k & H & _); discriminate.
  - rewrite run_roles_cons, role_for_cases. cbn [andb first_index].
    destruct (namable raw) eqn:Hn; cbn [negb].
    + destruct i as [|i]; cbn [nth_error].
      * split; [discriminate|]. intros (k & _ & Hk & _). lia.
      * rewrite contact_at_first_bar. split.
        -- intros H. exists 0%nat. cbn [skipn Nat.sub].
           rewrite Nat.sub_0_r. repeat split; [lia | exact H].
        -- intros (k & Hk & _ & H). injection Hk as <-.
           cbn [skipn Nat.sub] in H. now rewrite Nat.sub_0_r in H.
    + destruct i as [|i]; cbn [nth_error].
      * split; [|intros (k & _ & Hk & _); lia].
        destruct (strip raw); [discriminate|].
        intros H. injection H. intros H'. now apply late_role_not_flag_role in H'.
      * rewrite IH. split.
        -- intros (k & Hk & Hlt & H). exists (S k). rewrite Hk.
           repeat split; [lia | exact H].
        -- intros (k & Hk & Hlt & H).
           destruct k as [|k]; [now apply option_map_S_zero in Hk|].
           apply (proj1 (option_map_S_eq _ _)) in Hk. exists k.
           repeat split; [exact Hk | lia | exact H].
Qed.

End Flags.

(** What [first_index] finds. *)
Lemma first_index_least {A : Type} (p : A -> bool) (l : list A) (i : nat) :
  first_index p l = Some i <->
  (exists x, nth_error l i = Some x /\ p x = true) /\
  (forall j x, (j < i)%nat -> nth_error l j = Some x -> p x = false).
Proof.
  revert i. induction l as [|a l IH]; intros i.
  - cbn. split; [discriminate|]. intros ((x & H & _) & _). now destruct i.
  - cbn [first_index]. destruct (p a) eqn:Ha.
    + split.
      * intros H. injection H as <-. split; [now exists a|]. intros j x Hj. lia.
      * intros ((x & Hx & Hp) & Hleast). destruct i as [|i]; [reflexivity|].
        specialize (Hleast 0%nat a (Nat.lt_0_succ i) eq_refl). congruence.
    + destruct i as [|i].
      * split; [intros H; now apply option_map_S_zero in H|].
        intros ((x & Hx & Hp) & _). cbn in Hx. congruence.
      * rewrite option_map_S_eq, IH. cbn [nth_error]. split.
        -- intros (Hex & Hleast). split; [exact Hex|].
           intros [|j] x Hj Hx; cbn in Hx; [congruence|].
           apply (Hleast j); [lia | exact Hx].
        -- intros (Hex & Hleast). split; [exact Hex|].
           intros j x Hj Hx. apply (Hleast (S j)); [lia | exact Hx].
Qed.

(** X3. The name style goes to exactly one kind of line: line [i] is the name
    exactly when it is the first line of the text that is not blank and has
    fewer than 80 characters once trimmed. In particular at most one line of
    a document is the name. *)
Theorem name_is_first_short_line
    (T : CaseTable) (resume_text full_name : str) (i : nat) :
  nth_error (roles (create_pdf T resume_text full_name)) i = Some Name <->
  (exists raw, nth_error (split NEWLINE resume_text) i = Some raw /\
               namable raw = true) /\
  (forall j raw, (j < i)%nat ->
                 nth_error (split NEWLINE resume_text) j = Some raw ->
                 namable raw = false).
Proof.
  rewrite roles_create_pdf, name_at_first_namable. apply first_index_least.
Qed.

(** X4. The contact style goes to line [i] exactly when some earlier line [k]
    is the name, line [i] has a vertical bar, and no line between the two has
    one: the contact line is the first line with a bar after the name,
    however far after, and there is at most one. *)
Theorem contact_is_first_bar_after_name
    (T : CaseTable) (resume_text full_name : str) (i : nat) :
  nth_error (roles (create_pdf T resume_text full_name)) i = Some ContactLine <->
  exists k,
    (k < i)%nat /\
    nth_error (roles (create_pdf T resume_text full_name)) k = Some Name /\
    first_index has_bar (skipn (S k) (split NEWLINE resume_text)) = Some (i - S k)%nat.
Proof.
  rewrite roles_create_pdf, contact_after_name.
  split; intros (k & H); exists k.
  - destruct H as (Hk & Hlt & Hb). rewrite name_at_first_namable. now repeat split.
  - destruct H as (Hlt & Hk & Hb). rewrite name_at_first_namable in Hk.
    now repeat split.
Qed.

(** ** What the document keeps of the text *)

Lemma paragraph_texts_run (T : CaseTable) (lines : list str) :
  forall f1 f2,
    paragraph_texts (run T f1 f2 lines) =
    map escape (filter nonblank (map strip lines)).
Proof.
  induction lines as [|raw rest IH]; intros f1 f2; [reflexivity|].
  cbn [run map filter]. unfold paragraph_texts in *. cbn [flat_map].
  rewrite IH. unfold emitted. now destruct (strip raw).
Qed.

(** X5. No text is lost or reordered: the texts of the paragraphs of the
    document, read back from their escaped form, are the trimmed non-blank
    lines of the resume text, in order. *)
Theorem paragraphs_are_the_nonblank_lines
    (T : CaseTable) (resume_text full_name : str) :
  map unescape (paragraph_texts (story (create_pdf T resume_text full_name))) =
  filter nonblank (map strip (split NEWLINE resume_text)).
Proof.
  rewrite story_run, paragraph_texts_run, map_map.
  rewrite <- (map_id (filter nonblank (map strip (split NEWLINE resume_text)))) at 2.
  apply map_ext. apply unescape_escape.
Qed.

(** ** Whitespace around lines *)

Lemma run_strip_ext (T : CaseTable) (lines1 : list str) :
  forall lines2 f1 f2,
    map strip lines1 = map strip lines2 ->
    run T f1 f2 lines1 = run T f1 f2 lines2.
Proof.
  induction lines1 as [|a rest1 IH]; intros [|b rest2] f1 f2 H;
    try discriminate; [reflexivity|].
  cbn [map] in H. injection H as Hab Hrest. cbn [run].
  unfold emitted, first_after, second_after. rewrite Hab. f_equal.
  now apply IH.
Qed.

Lemma create_pdf_strip_ext (T : CaseTable) (text1 text2 name1 name2 : str) :
  map strip (split NEWLINE text1) = map strip (split NEWLINE text2) ->
  create_pdf T text1 name1 = create_pdf T text2 name2.
Proof.
  intros H. unfold create_pdf. f_equal.
  rewrite !fold_loop_body. f_equal. now apply run_strip_ext.
Qed.

(** X6. Only the trimmed lines matter: two texts whose lines are equal once
    trimmed give the same document, whatever the name passed with them. So
    indentation and trailing blanks never change the output. *)
Theorem whitespace_around_lines_is_ignored
    (T : CaseTable) (text1 text2 name1 name2 : str) :
  map strip (split NEWLINE text1) = map strip (split NEWLINE text2) ->
  create_pdf T text1 name1 = create_pdf T text2 name2.
Proof. apply create_pdf_strip_ext. Qed.

Lemma whitespace_around_lines_is_ignored_witness :
  create_pdf Py_ascii padded_text (of_string "a") =
  create_pdf Py_ascii trimmed_text (of_string "b").
Proof.
  apply (@whitespace_around_lines_is_ignored Py_ascii padded_text trimmed_text).
  vm_compute. reflexivity.
Defined.

Lemma lstrip_app_space (b : str) (w : char) :
  Py_UNICODE_ISSPACE w = true ->
  lstrip (b ++ [w]) =
  if forallb Py_UNICODE_ISSPACE b then [] else lstrip b ++ [w].
Proof.
  intros Hw. induction b as [|c b IH]; cbn [app lstrip forallb].
  - now rewrite Hw.
  - destruct (Py_UNICODE_ISSPACE c); [exact IH | reflexivity].
Qed.

Lemma rstrip_app_space (x : str) (w : char) :
  Py_UNICODE_ISSPACE w = true -> rstrip (x ++ [w]) = rstrip x.
Proof.
  intros Hw. unfold rstrip. rewrite rev_app_distr. cbn [rev app lstrip].
  now rewrite Hw.
Qed.

Lemma strip_app_space (b : str) (w : char) :
  Py_UNICODE_ISSPACE w = true -> strip (b ++ [w]) = strip b.
Proof.
  intros Hw. unfold strip. rewrite lstrip_app_space by exact Hw.
  destruct (forallb Py_UNICODE_ISSPACE b) eqn:Hb.
  - apply lstrip_all_space in Hb. now rewrite Hb.
  - now apply rstrip_app_space.
Qed.

Lemma crlf_by_char (text : str) :
  crlf text =
  flat_map (fun c => if (NEWLINE =? c)%N then [CARRIAGE_RETURN; NEWLINE] else [c]) text.
Proof. apply replace_one_char. Qed.

Lemma split_crlf (text : str) :
  Forall2 (fun a b => a = b \/ a = b ++ [CARRIAGE_RETURN])
    (split NEWLINE (crlf text)) (split NEWLINE text).
Proof.
  rewrite crlf_by_char. induction text as [|c text IH].
  - repeat constructor.
  - cbn [flat_map]. destruct (N.eqb_spec NEWLINE c) as [<-|Hc].
    + change (split NEWLINE ([CARRIAGE_RETURN; NEWLINE] ++ ?t))
        with ([CARRIAGE_RETURN] :: split NEWLINE t).
      change (split NEWLINE (NEWLINE :: text)) with ([] :: split NEWLINE text).
      constructor; [now right | exact IH].
    + assert (Hb : (c =? NEWLINE)%N = false) by (apply N.eqb_neq; congruence).
      cbn [app].
      destruct (@split_cons_other NEWLINE c text Hb) as (q & qs & Eq & ->).
      destruct (@split_cons_other NEWLINE c
                  (flat_map (fun c => if (NEWLINE =? c)%N
                                      then [CARRIAGE_RETURN; NEWLINE] else [c]) text) Hb)
        as (p & ps & Ep & ->).
      rewrite Eq, Ep in IH. inversion IH as [|? ? ? ? Hpq Hrest]; subst.
      constructor; [|exact Hrest].
      destruct Hpq as [->| ->]; [now left | now right].
Qed.

(** X7. Line endings of carriage return and newline give the same document
    as newlines alone: the carriage return left at the end of each piece is
    whitespace, and trimming removes it. *)
Theorem crlf_gives_same_document (T : CaseTable) (resume_text full_name : str) :
  create_pdf T (crlf resume_text) full_name = create_pdf T resume_text full_name.
Proof.
  apply create_pdf_strip_ext.
  induction (split_crlf resume_text) as [|a b la lb Hab _ IH]; [reflexivity|].
  cbn [map]. rewrite IH. f_equal.
  destruct Hab as [->| ->]; [reflexivity|]. now apply strip_app_space.
Qed.

(** ** The substring tests and the single pass *)

Lemma startswith_prefix (prefix s : str) :
  startswith prefix s = true <-> exists rest, s = prefix ++ rest.
Proof.
  revert s. induction prefix as [|p prefix IH]; intros s.
  - split; [intros _; now exists s | reflexivity].
  - destruct s as [|c s]; cbn [startswith].
    + split; [discriminate | intros (rest & H); discriminate].
    + rewrite andb_true_iff, N.eqb_eq, IH. split.
      * intros (-> & rest & ->). now exists rest.
      * intros (rest & H). cbn [app] in H. injection H as -> ->.
        split; [reflexivity | now exists rest].
Qed.

(** X18. The tests the rules are built from mean what they say:
    [startswith] holds exactly of the texts that begin with the prefix, and
    [in] exactly of the texts that have the piece somewhere inside. *)
Theorem contains_is_substring (sub s : str) :
  (startswith sub s = true <-> exists rest, s = sub ++ rest) /\
  (contains sub s = true <-> exists pre post, s = pre ++ sub ++ post).
Proof.
  split; [apply startswith_prefix|].
  induction s as [|c s IH]; cbn [contains]; rewrite orb_true_iff, startswith_prefix.
  - split.
    + intros [(rest & H)|H]; [|discriminate]. now exists [], rest.
    + intros (pre & post & H). left. destruct pre; [|discriminate].
      now exists post.
  - rewrite IH. split.
    + intros [(rest & H)|(pre & post & H)].
      * now exists [], rest.
      * exists (c :: pre), post. cbn [app]. now rewrite H.
    + intros ([|c' pre] & post & H).
      * left. now exists post.
      * right. cbn [app] in H. injection H as -> ->. now exists pre, post.
Qed.

Lemma split_app_newline (text1 text2 : str) :
  split NEWLINE (text1 ++ NEWLINE :: text2) =
  split NEWLINE text1 ++ split NEWLINE text2.
Proof.
  induction text1 as [|c text1 IH]; [reflexivity|].
  cbn [app split]. rewrite IH. destruct (c =? NEWLINE)%N; [reflexivity|].
  destruct (split NEWLINE text1) as [|piece pieces] eqn:E;
    [now apply split_nonempty in E | reflexivity].
Qed.

Lemma run_app_prefix (T : CaseTable) (lines1 lines2 : list str) :
  forall f1 f2,
    exists g1 g2,
      run T f1 f2 (lines1 ++ lines2) = run T f1 f2 lines1 ++ run T g1 g2 lines2.
Proof.
  induction lines1 as [|raw rest IH]; intros f1 f2; cbn [app run].
  - now exists f1, f2.
  - destruct (IH (first_after f1 raw) (second_after f1 f2 raw)) as (g1 & g2 & ->).
    now exists g1, g2.
Qed.

(** X19. The loop is one forward pass: text added after a newline never
    changes the flowables of the lines before it. The story of the longer
    text is the story of the text so far followed by one flowable for each
    added line. *)
Theorem earlier_lines_are_unaffected
    (T : CaseTable) (text more full_name : str) :
  exists added,
    story (create_pdf T (text ++ NEWLINE :: more) full_name) =
      story (create_pdf T text full_name) ++ added /\
    length added = length (split NEWLINE more).
Proof.
  rewrite !story_run, split_app_newline.
  destruct (run_app_prefix T (split NEWLINE text) (split NEWLINE more) true false)
    as (g1 & g2 & ->).
  eexists. split; [reflexivity | apply run_length].
Qed.

(** * Properties of the rest of the script *)

Example generate_examples :
  missing_fields form_with_blanks = [of_string "Email"; of_string "Skills"] /\
  missing_fields filled_form = [] /\
  moderation_blocked ascii_lower (of_string " Safe ") = true /\
  moderation_blocked ascii_lower (of_string "JANE DOE") = false /\
  file_name (of_string "Jane Q Doe") (of_string "20240131") (of_string ".pdf")
  = of_string "ATS_Resume_Jane_Q_Doe_20240131.pdf".
Proof. repeat split. Qed.

Lemma strip_empty_iff (s : str) :
  strip s = [] <-> forallb Py_UNICODE_ISSPACE s = true.
Proof.
  unfold strip. split.
  - intros H. destruct (lstrip_split s) as (pre & E1 & Hpre & _).
    destruct (rstrip_split (lstrip s)) as (post & E2 & Hpost & _).
    rewrite H in E2. cbn [app] in E2.
    rewrite E1, forallb_app, Hpre, E2. exact Hpost.
  - intros H. apply lstrip_all_space in H. now rewrite H.
Qed.

Lemma is_empty_true {A : Type} (x : list A) : is_empty x = true <-> x = [].
Proof. destruct x; split; intros H; try reflexivity; discriminate. Qed.

Lemma str_eqb_eq (a b : str) : str_eqb a b = true <-> a = b.
Proof.
  revert b. induction a as [|x a IH]; intros [|y b]; cbn [str_eqb];
    try (split; [discriminate | discriminate]); [now split|].
  rewrite andb_true_iff, N.eqb_eq, IH.
  split; [intros [-> ->]; reflexivity | intros H; injection H; auto].
Qed.

(** ** Validation *)

(** X8. A required field is listed as missing exactly when its entry is empty
    or has whitespace characters only. *)
Theorem missing_field_is_blank_field (f : Form) (label : str) :
  In label (missing_fields f) <->
  exists value,
    In (label, value) (required_fields f) /\
    forallb Py_UNICODE_ISSPACE value = true.
Proof.
  unfold missing_fields. rewrite in_map_iff. split.
  - intros ([l v] & <- & H). apply filter_In in H. destruct H as (Hin & Hb).
    exists v. split; [exact Hin|].
    apply strip_empty_iff. now apply is_empty_true.
  - intros (v & Hin & Hb). exists (label, v). split; [reflexivity|].
    apply filter_In. split; [exact Hin|].
    apply is_empty_true. now apply strip_empty_iff.
Qed.

(** X9. When a required field is missing the chain is not consulted: the
    handler gives the same result whatever the chain is, leaves the session
    state as it is and reports one error that lists the missing fields,
    separated by comma and space. *)
Theorem generate_with_missing_fields
    (lower : str -> str) (chain chain' : list (string * str) -> ChainResult)
    (f : Form) (st : SessionState) :
  missing_fields f <> [] ->
  generate lower chain f st = generate lower chain' f st /\
  generate lower chain f st =
    (st,
     [st_error ([CROSS_MARK]
                ++ of_string " Please fill in the following required fields: "
                ++ join (of_string ", ") (missing_fields f))]).
Proof.
  intros H. unfold generate.
  destruct (missing_fields f) as [|m ms]; [now elim H|]. now split.
Qed.

Lemma generate_with_missing_fields_witness :
  generate ascii_lower (fun _ => Returned (of_string "JANE DOE"))
    form_with_blanks stored_session =
  (stored_session,
   [st_error ([CROSS_MARK]
              ++ of_string " Please fill in the following required fields: Email, Skills")]).
Proof.
  destruct (@generate_with_missing_fields ascii_lower
              (fun _ => Returned (of_string "JANE DOE")) (fun _ => Raised [])
              form_with_blanks stored_session) as (_ & H).
  - vm_compute. discriminate.
  - exact H.
Defined.

(** ** The handler and the session state *)


Lemma ascii_lower_nil (s : str) : ascii_lower s = [] <-> s = [].
Proof. destruct s; split; intros H; try reflexivity; discriminate. Qed.

(** X11. Which outputs count as blocked by moderation, for an output whose
    trimmed text is ASCII: the output is not empty and, trimmed and lowered,
    is [safe], [unsafe] or nothing at all. So [Safe] with blanks around it is
    blocked, a text of blanks only is blocked, and the empty output is not. *)
Theorem moderation_blocked_ascii (lower : str -> str) (resume_output : str) :
  lower_agrees_with_ascii lower ->
  forallb (fun c => c <? 128)%N (strip resume_output) = true ->
  (moderation_blocked lower resume_output = true <->
   resume_output <> [] /\
   (ascii_lower (strip resume_output) = of_string "safe" \/
    ascii_lower (strip resume_output) = of_string "unsafe" \/
    strip resume_output = [])).
Proof.
  intros Hlow Hascii. unfold moderation_blocked.
  rewrite (Hlow _ Hascii), andb_true_iff, negb_true_iff.
  cbn [existsb]. rewrite !orb_true_iff, !str_eqb_eq, ascii_lower_nil.
  split.
  - intros (Hne & H). split.
    + intros ->. discriminate.
    + destruct H as [H|[H|[H|H]]]; auto. discriminate.
  - intros (Hne & H). split.
    + destruct resume_output; [now elim Hne | reflexivity].
    + destruct H as [H|[H|H]]; auto.
Qed.

Lemma moderation_blocked_ascii_witness :
  moderation_blocked ascii_lower (of_string " Safe ") = true.
Proof.
  apply (@moderation_blocked_ascii ascii_lower (of_string " Safe ")).
  - intros s _. reflexivity.
  - vm_compute. reflexivity.
  - split; [vm_compute; discriminate | left; vm_compute; reflexivity].
Defined.

(** X12. An empty output of the chain is not blocked: it is stored as the
    generated resume and reported as a success, replacing what was stored,
    and the display then shows nothing. *)
Theorem empty_output_is_a_silent_success
    (T : CaseTable) (lower : str -> str)
    (chain : list (string * str) -> ChainResult)
    (f : Form) (st : SessionState) (stamp_txt stamp_pdf : str) :
  missing_fields f = [] ->
  chain (input_data f) = Returned [] ->
  generate lower chain f st =
    ({| resume_generated := Some true; generated_resume := Some [] |},
     [st_success ([CHECK_MARK] ++ of_string " Resume generated successfully!")]) /\
  display T stamp_txt stamp_pdf (full_name f) (fst (generate lower chain f st))
  = NothingShown.
Proof.
  intros Hm Hc. unfold generate. rewrite Hm, Hc. now split.
Qed.

Lemma empty_output_is_a_silent_success_witness :
  generate ascii_lower (fun _ => Returned []) filled_form stored_session =
    ({| resume_generated := Some true; generated_resume := Some [] |},
     [st_success ([CHECK_MARK] ++ of_string " Resume generated successfully!")]) /\
  display Py_ascii [] [] (full_name filled_form)
    (fst (generate ascii_lower (fun _ => Returned []) filled_form stored_session))
  = NothingShown.
Proof.
  apply (@empty_output_is_a_silent_success Py_ascii ascii_lower
           (fun _ => Returned []) filled_form stored_session [] []);
    reflexivity.
Defined.

(** X13. A successful generation is what the display shows: the text area
    and the text download hold the output unchanged, and the PDF download is
    [create_pdf] of that output and the full name. *)
Theorem generated_resume_is_shown
    (T : CaseTable) (lower : str -> str)
    (chain : list (string * str) -> ChainResult)
    (f : Form) (st : SessionState) (stamp_txt stamp_pdf resume_output : str) :
  missing_fields f = [] ->
  chain (input_data f) = Returned resume_output ->
  moderation_blocked lower resume_output = false ->
  resume_output <> [] ->
  display T stamp_txt stamp_pdf (full_name f) (fst (generate lower chain f st)) =
  Shown {| text_area_value := resume_output;
           txt_data := resume_output;
           txt_file_name := file_name (full_name f) stamp_txt (of_string ".txt");
           pdf_document := create_pdf T resume_output (full_name f);
           pdf_file_name := file_name (full_name f) stamp_pdf (of_string ".pdf") |}.
Proof.
  intros Hm Hc Hb Hne. unfold generate. rewrite Hm, Hc, Hb.
  cbn [is_empty negb fst display resume_generated generated_resume].
  destruct resume_output; [now elim Hne | reflexivity].
Qed.

Lemma generated_resume_is_shown_witness :
  display Py_ascii (of_string "20240131") (of_string "20240131")
    (full_name filled_form)
    (fst (generate ascii_lower (fun _ => Returned (of_string "JANE DOE"))
            filled_form empty_session)) =
  Shown {| text_area_value := of_string "JANE DOE";
           txt_data := of_string "JANE DOE";
           txt_file_name := of_string "ATS_Resume_Jane_Doe_20240131.txt";
           pdf_document := create_pdf Py_ascii (of_string "JANE DOE") (of_string "Jane Doe");
           pdf_file_name := of_string "ATS_Resume_Jane_Doe_20240131.pdf" |}.
Proof.
  apply (@generated_resume_is_shown Py_ascii ascii_lower
           (fun _ => Returned (of_string "JANE DOE")) filled_form empty_session
           (of_string "20240131") (of_string "20240131") (of_string "JANE DOE"));
    try reflexivity.
  vm_compute. discriminate.
Defined.

(** X14. After "Clear All Data" every key is gone, and the rerun of the
    script, which starts by giving the keys their defaults, shows no resume,
    whatever was stored before. *)
Theorem clear_then_rerun_shows_nothing
    (T : CaseTable) (st : SessionState) (stamp_txt stamp_pdf name : str) :
  clear_all_data st = empty_session /\
  init_session_state (clear_all_data st) =
    {| resume_generated := Some false; generated_resume := Some [] |} /\
  display T stamp_txt stamp_pdf name (init_session_state (clear_all_data st))
  = NothingShown.
Proof.
  assert (H : clear_all_data st = empty_session).
  { destruct st as [[b|] [s|]]; reflexivity. }
  rewrite H. now repeat split.
Qed.

(** X15. The initialisation at the top of the script keeps what is stored:
    an entry that is present keeps its value, running it twice is running it
    once, and after it the display section never fails on a missing key. *)
Theorem init_session_state_keeps_entries
    (T : CaseTable) (st : SessionState) (stamp_txt stamp_pdf name : str) :
  (forall b, resume_generated st = Some b ->
             resume_generated (init_session_state st) = Some b) /\
  (forall s, generated_resume st = Some s ->
             generated_resume (init_session_state st) = Some s) /\
  init_session_state (init_session_state st) = init_session_state st /\
  display T stamp_txt stamp_pdf name (init_session_state st) <> AttributeError.
Proof.
  destruct st as [[b|] [s|]]; repeat split; cbn; try congruence;
    try discriminate.
  all: try (destruct b; [destruct s|]; discriminate).
  all: try (destruct b; discriminate).
Qed.

(** ** File names *)

(** X16. The file name has no space when the date stamp has none: every
    space of the full name becomes an underscore and every other character of
    the name is kept as it is, path separators included. *)
Theorem file_name_has_no_space (name stamp ext : str) :
  ~ In SPACE stamp -> ~ In SPACE ext ->
  replace (of_string " ") (of_string "_") name =
    map (fun c => if (c =? SPACE)%N then LOW_LINE else c) name /\
  ~ In SPACE (file_name name stamp ext) /\
  length (file_name name stamp ext) =
    (12 + length name + length stamp + length ext)%nat.
Proof.
  intros Hs He.
  assert (Hr : replace (of_string " ") (of_string "_") name =
               map (fun c => if (c =? SPACE)%N then LOW_LINE else c) name).
  { change (of_string " ") with [SPACE]. change (of_string "_") with [LOW_LINE].
    rewrite replace_one_char. induction name as [|c name IH]; [reflexivity|].
    cbn [flat_map map]. rewrite IH, (N.eqb_sym SPACE c).
    now destruct (c =? SPACE)%N. }
  split; [exact Hr|]. unfold file_name. rewrite Hr. split.
  - rewrite !in_app_iff, in_map_iff.
    intros [H|[H|[H|[H|H]]]]; [..|now apply He].
    + vm_compute in H. repeat (destruct H as [H|H]; [discriminate|]). exact H.
    + destruct H as (c & Hc & _). destruct (c =? SPACE)%N eqn:E;
        [discriminate Hc | apply N.eqb_neq in E; congruence].
    + vm_compute in H. destruct H as [H|[]]. discriminate.
    + now apply Hs.
  - rewrite !length_app, length_map.
    change (length (of_string "ATS_Resume_")) with 11%nat.
    change (length (of_string "_")) with 1%nat.
    unfold str, char in *. lia.
Qed.

Lemma file_name_has_no_space_witness :
  ~ In SPACE (file_name (of_string "Jane Q Doe") (of_string "20240131")
                (of_string ".pdf")).
Proof.
  apply (@file_name_has_no_space (of_string "Jane Q Doe") (of_string "20240131")
           (of_string ".pdf")).
  - vm_compute. intros H. repeat (destruct H as [H|H]; [discriminate|]). exact H.
  - vm_compute. intros H. repeat (destruct H as [H|H]; [discriminate|]). exact H.
Defined.

(** ** Fields that are collected and not used *)

(** X17. The GitHub and achievements fields of the form have no effect on the
    generation: they are neither required nor handed to the chain, so the
    handler gives the same result whatever they hold. *)
Theorem github_and_achievements_are_ignored
    (lower : str -> str) (chain : list (string * str) -> ChainResult)
    (f : Form) (st : SessionState) (g a : str) :
  input_data (with_github_achievements f g a) = input_data f /\
  generate lower chain (with_github_achievements f g a) st =
  generate lower chain f st.
Proof. split; reflexivity. Qed.
